(** * File-level merge handling (mercurial/filemerge.py)

    A shallow embedding of the tool registry, the tool picker, the internal
    merge strategies, the external driver, the post-check and the
    orchestrator [_filemerge], together with the properties the
    specification states about them.

    Python values that the code inspects dynamically (truthiness of a
    result, [None] returns, tuples) are kept as [pyval]; byte strings are
    [string] (Python 2 [str]); dictionaries are [gmap]s. *)

From Stdlib Require Import ZArith Lia Ascii.
From stdpp Require Import base option list strings pretty gmap sorting.

Set Warnings "-register-all".

Local Open Scope string_scope.
Local Open Scope Z_scope.

(** ** Python values *)

Inductive pyval :=
| PyNone
| PyBool (b : bool)
| PyInt (z : Z)
| PyStr (s : string)
| PyTuple (items : list pyval).

(** [bool(v)]: what [if v:] and [not v] test. *)
Definition truthy (v : pyval) : bool :=
  match v with
  | PyNone => false
  | PyBool b => b
  | PyInt z => negb (z =? 0)
  | PyStr s => negb (String.eqb s "")
  | PyTuple items => match items with [] => false | _ :: _ => true end
  end.

(** ** The tool registry *)

(** internal tool merge types *)
Inductive mergetype_t := nomerge | mergeonly | fullmerge.

Global Instance mergetype_eq_dec : EqDecision mergetype_t.
Proof. solve_decision. Defined.

(** The functions decorated with [@internaltool] in the module. *)
Inductive strategy :=
| f_iabort | f_iprompt | f_ilocal | f_iother | f_ifail
| f_iunion | f_imerge | f_imerge3 | f_imergelocal | f_imergeother
| f_itagmerge | f_idump | f_forcedump.

Inductive precheckfn := f_mergecheck.

Definition conflictswarning : string :=
  "warning: conflicts while merging %s! (edit, then use 'hg resolve --mark')".

Definition tagmergewarning : string :=
  "automatic tag merging of %s failed! (use 'hg resolve --tool :merge' or another merge tool of your choice)".

(** The attributes the decorator [@internaltool(name, mergetype,
    onfailure=None, precheck=None)] attaches to each function object. *)
Definition mergetype (f : strategy) : mergetype_t :=
  match f with
  | f_iabort => fullmerge
  | f_iprompt | f_ilocal | f_iother | f_ifail => nomerge
  | f_iunion | f_imerge | f_imerge3 => fullmerge
  | f_imergelocal | f_imergeother | f_itagmerge => mergeonly
  | f_idump => fullmerge
  | f_forcedump => mergeonly
  end.

Definition onfailure (f : strategy) : option string :=
  match f with
  | f_iunion | f_imerge | f_imerge3 => Some conflictswarning
  | f_itagmerge => Some tagmergewarning
  | _ => None
  end.

Definition precheck (f : strategy) : option precheckfn :=
  match f with
  | f_iunion | f_imerge | f_imerge3 | f_imergelocal | f_imergeother => Some f_mergecheck
  | _ => None
  end.

(** [internaltool._table]: the name each decorator registers its function
    under. *)
Definition internaltool_table : gmap string strategy :=
  list_to_map [
    ("abort", f_iabort); ("prompt", f_iprompt); ("local", f_ilocal);
    ("other", f_iother); ("fail", f_ifail); ("union", f_iunion);
    ("merge", f_imerge); ("merge3", f_imerge3);
    ("merge-local", f_imergelocal); ("merge-other", f_imergeother);
    ("tagmerge", f_itagmerge); ("dump", f_idump); ("forcedump", f_forcedump)
  ].

(** The two module-level dictionaries [internals] and [internalsdoc]. *)
Record registries := {
  internals : gmap string strategy;
  internalsdoc : gmap string strategy
}.

Definition noregistries : registries := {| internals := ∅; internalsdoc := ∅ |}.

(** One iteration of the loop of [loadinternalmerge]. *)
Definition loadinternalmerge_item (reg : registries) (item : string * strategy) : registries :=
  let '(name, fn) := item in
  let fullname := ":" +:+ name in
  {| internals := <["internal:" +:+ name := fn]> (<[fullname := fn]> (internals reg));
     internalsdoc := <[fullname := fn]> (internalsdoc reg) |}.

Definition loadinternalmerge (table : gmap string strategy) (reg : registries) : registries :=
  foldl loadinternalmerge_item reg (map_to_list table).

(** The registry once the module is loaded: [loadinternalmerge(None, None, internaltool)]. *)
Definition loaded : registries := loadinternalmerge internaltool_table noregistries.

(** ** Exceptions the module raises or lets through *)

Inductive exn :=
| Abort (msg : string)
| AbortMergeToolError (msg : string)
| InMemoryMergeConflictsError (msg : string) (paths : list string)
| ConfigError (msg : string)
| InterventionRequired (msg : string)
| ResponseExpected
| AttributeError (attr : string)
| TypeError
| ValueError
| IndexError
| IOError (path : string).

(** ** Contexts and file contexts *)

Inductive changectx :=
| changectx_rev (node : string)   (* a committed changeset *)
| workingctx                      (* the working directory on disk *)
| overlayworkingctx.              (* the in-memory working context *)

Global Instance changectx_eq_dec : EqDecision changectx.
Proof. solve_decision. Defined.

Definition isinmemory (c : changectx) : bool :=
  match c with overlayworkingctx => true | _ => false end.

(** [fctx c p] is [c[p]]: a [filectx], [workingfilectx] or
    [overlayworkingfilectx] according to [c]; [arbitraryfilectx] is a file
    of the disk named by its absolute path; [absentfilectx] is the class
    of this module. *)
Inductive filectx :=
| fctx (ctx : changectx) (path : string)
| arbitraryfilectx (path : string)
| absentfilectx (ctx : changectx) (f : string).

Global Instance filectx_eq_dec : EqDecision filectx.
Proof. solve_decision. Defined.

Record filedata := { fdata : string; fflags : string }.

(** ** The world a merge runs in *)

Inductive event :=
| ui_warn (msg : string)
| ui_note (msg : string)
| ui_status (msg : string)
| ui_debug (msg : string)
| ui_write (msg : string)
| ui_promptchoice (msg : string) (default : Z)
| ev_simplemerge (local : filectx)
| ev_tagmerge (local : filectx)
| ev_system (cmd : string)
| ev_mkstemp (name : string)
| ev_unlink (name : string)
| ev_write (f : filectx)
| ev_remove (f : filectx).

Record world := {
  disk : gmap string filedata;                 (* files by absolute path *)
  mem : gmap string filedata;                  (* the in-memory context, by repository path *)
  revs : gmap string (gmap string filedata);   (* committed changesets, node to manifest *)
  responses : list (option Z);                 (* pending answers to prompts *)
  log : list event                             (* what happened, oldest first *)
}.

Definition set_disk (d : gmap string filedata) (w : world) : world :=
  {| disk := d; mem := mem w; revs := revs w; responses := responses w; log := log w |}.
Definition set_mem (m : gmap string filedata) (w : world) : world :=
  {| disk := disk w; mem := m; revs := revs w; responses := responses w; log := log w |}.
Definition set_responses (r : list (option Z)) (w : world) : world :=
  {| disk := disk w; mem := mem w; revs := revs w; responses := r; log := log w |}.
Definition add_log (e : event) (w : world) : world :=
  {| disk := disk w; mem := mem w; revs := revs w; responses := responses w; log := log w ++ [e] |}.

(** ** Computations: state over [S], with exceptions *)

Definition M (S A : Type) : Type := S → S * (exn + A).

Definition ret {S A} (a : A) : M S A := λ s, (s, inr a).
Definition raise {S A} (e : exn) : M S A := λ s, (s, inl e).
Definition bind {S A B} (m : M S A) (k : A → M S B) : M S B :=
  λ s, match m s with
       | (s', inr a) => k a s'
       | (s', inl e) => (s', inl e)
       end.
Definition get {S} : M S S := λ s, (s, inr s).
Definition modify {S} (f : S → S) : M S unit := λ s, (f s, inr tt).

(** [try: body finally: fin] *)
Definition try_finally {S A} (body : M S A) (fin : M S unit) : M S A :=
  λ s, match body s with
       | (s', res) =>
           match fin s' with
           | (s'', inr _) => (s'', res)
           | (s'', inl e) => (s'', inl e)
           end
       end.

(** [try: body except: handler], the handler choosing the exceptions it
    catches (it re-raises the others). *)
Definition try_except {S A} (body : M S A) (handler : exn → M S A) : M S A :=
  λ s, match body s with
       | (s', inl e) => handler e s'
       | r => r
       end.

Notation "'let*' x ':=' m 'in' k" := (bind m (λ x, k))
  (at level 10, x pattern, m at level 100, k at level 200).
Notation "m ';;' k" := (bind m (λ _, k))
  (at level 100, k at level 200, right associativity).

(** ** Host services

    What the module consumes from the rest of the program and from the
    platform: the configuration and user interface ([ui]), [util],
    [match], the repository object, the template engine, the simple-merge
    and tag-merge primitives and process execution.  They are taken as
    they come; nothing is assumed about them. *)

Record smopts := {
  quiet : bool;
  label : option (list string);
  mode : option string;
  localorother : option string
}.

Record host := {
  (* ui.config(section, name[, default]) and its typed variants *)
  ui_config : string → string → option string → option string;
  ui_configbool : string → string → option bool → exn + bool;
  ui_configlist : string → string → list string;
  ui_configitems : string → list (string * string);
  (* encoding.environ.get *)
  environ : string → option string;
  (* int(...) of a configuration value *)
  pyint : option string → exn + Z;
  (* util *)
  util_binary : string → bool;
  util_findexe : string → option string;
  util_lookupreg : string → option string → option string;
  util_expandpath : string → string;
  util_shellquote : string → string;
  util_localpath : string → string;
  util_gui : bool;
  util_ellipsis : string → Z → string;
  util_interpolate : string → list (string * string) → string → (string → string) → string;
  (* match.match(repo.root, "", [pat]) applied to a path *)
  matchpat : string → string → bool;
  (* the repository *)
  repo_wjoin : string → string;
  repo_pathto : string → string;
  repo_wvfs_base : string;
  repo_vfs_base : string;
  repo_wvfs_join : string → string;
  repo_wwritedata : string → string → string;
  scmutil_origpath : string → string;
  (* short(node), str(ctx), str(fctx) *)
  short : string → string;
  ctxstr : changectx → string;
  fctxstr : filectx → string;
  (* unquote, compile and render ui.mergemarkertemplate on a context
     (on its first parent when the context has no node) *)
  render : option string → changectx → string;
  (* the merged text (when one is written) and the status computed by simplemerge
     and by tagmerge *)
  simplemerge_text : smopts → string → string → string → option string * Z;
  tagmerge_text : string → string → string → option string * bool * Z;
  (* ui.system: what the command does to the disk, and its exit code *)
  system : string → list (string * pyval) → gmap string filedata → gmap string filedata * Z;
  (* tempfile.mkstemp(prefix, suffix): the name it picks *)
  mkstemp : string → string → gmap string filedata → string;
  (* os.path *)
  os_splitext : string → string * string;
  os_basename : string → string
}.

(** Truth value of a string or [None]. *)
Definition str_truthy (o : option string) : bool :=
  match o with
  | Some s => negb (String.eqb s "")
  | None => false
  end.

Definition ostr (o : option string) : pyval :=
  match o with Some s => PyStr s | None => PyNone end.

(** ** Operations of Python strings *)

Definition NUL : string := String (Ascii.ascii_of_nat 0) "".
Definition LF : string := String (Ascii.ascii_of_nat 10) "".
Definition CR : string := String (Ascii.ascii_of_nat 13) "".
Definition CRLF : string := CR +:+ LF.

(** [sub in s] *)
Fixpoint contains (sub s : string) : bool :=
  String.prefix sub s ||
  match s with
  | EmptyString => false
  | String _ s' => contains sub s'
  end.

(** [s.startswith(pre)] *)
Definition startswith (s pre : string) : bool := String.prefix pre s.

(** [s[n:]] *)
Fixpoint strdrop (n : nat) (s : string) : string :=
  match n, s with
  | O, _ => s
  | S n', String _ s' => strdrop n' s'
  | S _, EmptyString => EmptyString
  end.

Definition lower_ascii (c : Ascii.ascii) : Ascii.ascii :=
  let n := Ascii.nat_of_ascii c in
  if (65 <=? n)%nat && (n <=? 90)%nat then Ascii.ascii_of_nat (n + 32) else c.

(** [s.lower()] *)
Fixpoint lower (s : string) : string :=
  match s with
  | EmptyString => EmptyString
  | String c s' => String (lower_ascii c) (lower s')
  end.

(** [s.split(sep)] for a one-character separator. *)
Fixpoint split (sep : Ascii.ascii) (s : string) : list string :=
  match s with
  | EmptyString => [EmptyString]
  | String c s' =>
      if Ascii.eqb c sep then EmptyString :: split sep s'
      else match split sep s' with
           | l :: ls => String c l :: ls
           | [] => [String c EmptyString]
           end
  end.

(** [s.replace(old, new)] for a non-empty [old]; [skip] counts the
    characters of a replaced occurrence still to be passed over. *)
Fixpoint replace_go (old new : string) (skip : nat) (s : string) : string :=
  match s with
  | EmptyString => EmptyString
  | String c s' =>
      match skip with
      | S k => replace_go old new k s'
      | O =>
          if String.prefix old s
          then new +:+ replace_go old new (String.length old - 1) s'
          else String c (replace_go old new O s')
      end
  end.

Definition replace (s old new : string) : string := replace_go old new O s.

(** [s.ljust(width)] *)
Definition ljust (s : string) (width : nat) : string :=
  s +:+ String.concat "" (replicate (width - String.length s) " ").

(** [s.splitlines()[0]] of a non-empty byte string. *)
Fixpoint firstline (s : string) : string :=
  match s with
  | EmptyString => EmptyString
  | String c s' =>
      if Ascii.eqb c (Ascii.ascii_of_nat 10) || Ascii.eqb c (Ascii.ascii_of_nat 13)
      then EmptyString else String c (firstline s')
  end.

(** [", ".join(l)] and friends *)
Definition join (sep : string) (l : list string) : string := String.concat sep l.

Section FileMerge.

Variable H : host.

(** ** File contexts: the methods the module calls *)

Definition path (f : filectx) : string :=
  match f with
  | fctx _ p => p
  | arbitraryfilectx p => p
  | absentfilectx _ p => p
  end.

Definition isabsent (f : filectx) : bool :=
  match f with absentfilectx _ _ => true | _ => false end.

(** [changectx()]; a file outside every context counts with the working
    directory. *)
Definition changectx_of (f : filectx) : changectx :=
  match f with
  | fctx c _ => c
  | arbitraryfilectx _ => workingctx
  | absentfilectx c _ => c
  end.

(** Modelled from the spec: the file-version handles ([data], [flags],
    [is_binary], [cmp], writing and removing) of the [context] module,
    which is not part of the sources at hand.  A present file version
    reads the store its context designates; reading a file that is not
    there is an error. *)
Definition stored (f : filectx) (w : world) : option filedata :=
  match f with
  | fctx (changectx_rev n) p => revs w !! n ≫= λ mf, mf !! p
  | fctx workingctx p => disk w !! repo_wjoin H p
  | fctx overlayworkingctx p => mem w !! p
  | arbitraryfilectx p => disk w !! p
  | absentfilectx _ _ => None
  end.

Definition present_read (f : filectx) : M world filedata :=
  λ w, match stored f w with
       | Some d => (w, inr d)
       | None => (w, inl (IOError (path f)))
       end.

(** [data()]: [None] for [absentfilectx]. *)
Definition data (f : filectx) : M world pyval :=
  match f with
  | absentfilectx _ _ => ret PyNone
  | _ => let* d := present_read f in ret (PyStr (fdata d))
  end.

(** [size()]: [None] for [absentfilectx]. *)
Definition size (f : filectx) : M world pyval :=
  match f with
  | absentfilectx _ _ => ret PyNone
  | _ => let* d := present_read f in ret (PyInt (Z.of_nat (String.length (fdata d))))
  end.

(** [flags()]: [""] for [absentfilectx]. *)
Definition flags (f : filectx) : M world string :=
  match f with
  | absentfilectx _ _ => ret ""
  | _ => let* d := present_read f in ret (fflags d)
  end.

(** [isbinary()]: [False] for [absentfilectx]. *)
Definition isbinary (f : filectx) : M world bool :=
  match f with
  | absentfilectx _ _ => ret false
  | _ => let* d := present_read f in ret (util_binary H (fdata d))
  end.

(** [cmp(fctx)]: true when the contents differ.  [absentfilectx.cmp] is
    the method of this module: it asks [fctx.ctx()] of an absent [fctx],
    an attribute file contexts do not have. *)
Definition cmp (self f : filectx) : M world bool :=
  match self with
  | absentfilectx _ _ =>
      if isabsent f then raise (AttributeError "ctx") else ret true
  | _ =>
      match f with
      | absentfilectx _ _ => ret true   (* _customcmp: f.cmp(self), self present *)
      | _ =>
          let* a := present_read self in
          let* b := present_read f in
          ret (negb (String.eqb (fdata a) (fdata b)))
      end
  end.

(** [write(data, flags)] *)
Definition write (f : filectx) (d : pyval) (fl : string) : M world unit :=
  match d with
  | PyStr s =>
      let fd := {| fdata := s; fflags := fl |} in
      match f with
      | fctx workingctx p =>
          modify (λ w, add_log (ev_write f) (set_disk (<[repo_wjoin H p := fd]> (disk w)) w))
      | fctx overlayworkingctx p =>
          modify (λ w, add_log (ev_write f) (set_mem (<[p := fd]> (mem w)) w))
      | arbitraryfilectx p =>
          modify (λ w, add_log (ev_write f) (set_disk (<[p := fd]> (disk w)) w))
      | _ => raise (AttributeError "write")
      end
  | _ => raise TypeError
  end.

(** [remove()] *)
Definition remove (f : filectx) : M world unit :=
  match f with
  | fctx workingctx p =>
      modify (λ w, add_log (ev_remove f) (set_disk (delete (repo_wjoin H p) (disk w)) w))
  | fctx overlayworkingctx p =>
      modify (λ w, add_log (ev_remove f) (set_mem (delete p (mem w)) w))
  | arbitraryfilectx p =>
      modify (λ w, add_log (ev_remove f) (set_disk (delete p (disk w)) w))
  | _ => raise (AttributeError "remove")
  end.

(** ** The user interface *)

Definition emit (e : event) : M world unit := modify (add_log e).
Definition warn (msg : string) : M world unit := emit (ui_warn msg).
Definition note (msg : string) : M world unit := emit (ui_note msg).
Definition status (msg : string) : M world unit := emit (ui_status msg).
Definition debug (msg : string) : M world unit := emit (ui_debug msg).

(** Modelled from the spec: a prompt with a choice list.  The answer is
    the next pending response; without one the default is taken, and a
    missing answer where one is expected raises [ResponseExpected]. *)
Definition promptchoice (msg : string) (default : Z) : M world Z :=
  λ w, let w' := add_log (ui_promptchoice msg default) w in
       match responses w with
       | [] => (w', inr default)
       | Some i :: rs => (set_responses rs w', inr i)
       | None :: rs => (set_responses rs w', inl ResponseExpected)
       end.

Definition liftE {S A} (r : exn + A) : M S A :=
  match r with inl e => raise e | inr a => ret a end.

Definition _toolstr (tool part : string) (default : option string) : option string :=
  ui_config H "merge-tools" (tool +:+ "." +:+ part) default.

Definition _toolbool (tool part : string) (default : option bool) : exn + bool :=
  ui_configbool H "merge-tools" (tool +:+ "." +:+ part) default.

Definition _toollist (tool part : string) : list string :=
  ui_configlist H "merge-tools" (tool +:+ "." +:+ part).

(** ** Finding a tool *)

Variable reg : registries.

(** [a + b] on two configuration values, either of which may be [None]. *)
Definition stradd (a b : option string) : exn + string :=
  match a, b with
  | Some x, Some y => inr (x +:+ y)
  | _, _ => inl TypeError
  end.

Fixpoint findexternaltool_keys (tool : string) (kns : list string) : exn + option string :=
  match kns with
  | [] => inr None
  | kn :: rest =>
      let k := _toolstr tool kn None in
      match k with
      | Some k' =>
          if str_truthy k then
            let p := util_lookupreg H k' (_toolstr tool "regname" None) in
            if str_truthy p then
              match stradd p (_toolstr tool "regappend" (Some "")) with
              | inl e => inl e
              | inr q =>
                  let p' := util_findexe H q in
                  if str_truthy p' then inr p' else findexternaltool_keys tool rest
              end
            else findexternaltool_keys tool rest
          else findexternaltool_keys tool rest
      | None => findexternaltool_keys tool rest
      end
  end.

Definition findexternaltool (tool : string) : exn + option string :=
  match findexternaltool_keys tool ["regkey"; "regkeyalt"] with
  | inl e => inl e
  | inr (Some p) => inr (Some p)
  | inr None =>
      match _toolstr tool "executable" (Some tool) with
      | Some exe => inr (util_findexe H (util_expandpath H exe))
      | None => inl TypeError
      end
  end.

Definition _findtool (tool : string) : exn + option string :=
  match internals reg !! tool with
  | Some _ => inr (Some tool)
  | None => findexternaltool tool
  end.

(** ** The tool picker *)

Definition supportscd (tool : option string) : bool :=
  match tool with
  | Some t =>
      match internals reg !! t with
      | Some f => bool_decide (mergetype f = nomerge)
      | None => false
      end
  | None => false
  end.

(** [cond and not _toolbool(ui, tool, part)], the lookup made only when
    [cond] holds. *)
Definition and_not_toolbool (cond : bool) (tool part : string) : M world bool :=
  if cond then let* b := liftE (_toolbool tool part None) in ret (negb b) else ret false.

Definition check (tool : string) (pat : option string) (symlink binary changedelete : bool)
  : M world bool :=
  let tmsg :=
    match pat with
    | Some pt => if str_truthy pat then tool +:+ " (for pattern " +:+ pt +:+ ")" else tool
    | None => tool
    end in
  let* found := liftE (_findtool tool) in
  if negb (str_truthy found) then
    (if str_truthy pat
     then warn ("couldn't find merge tool " +:+ tmsg +:+ LF)
     else note ("couldn't find merge tool " +:+ tmsg +:+ LF)) ;;
    ret false
  else
    let* nosymlink := and_not_toolbool symlink tool "symlink" in
    if nosymlink then
      warn ("tool " +:+ tmsg +:+ " can't handle symlinks" +:+ LF) ;; ret false
    else
      let* nobinary := and_not_toolbool binary tool "binary" in
      if nobinary then
        warn ("tool " +:+ tmsg +:+ " can't handle binary" +:+ LF) ;; ret false
      else if changedelete && negb (supportscd (Some tool)) then
        ret false
      else
        let* needsgui :=
          (if negb (util_gui H) then liftE (_toolbool tool "gui" None) else ret false) in
        if needsgui then
          warn ("tool " +:+ tmsg +:+ " requires a GUI" +:+ LF) ;; ret false
        else ret true.

(** [util.shellquote(toolpath)] *)
Definition shellquote (toolpath : option string) : M world (option string) :=
  match toolpath with
  | Some p => ret (Some (util_shellquote H p))
  | None => raise TypeError
  end.

(** The loop over [ui.configitems("merge-patterns")]; [None] when it
    ends without returning. *)
Fixpoint _picktool_patterns (items : list (string * string)) (path : string)
    (symlink changedelete : bool) : M world (option (string * option string)) :=
  match items with
  | [] => ret None
  | (pat, tool) :: rest =>
      let* ok := (if matchpat H pat path
                  then check tool (Some pat) symlink false changedelete
                  else ret false) in
      if ok then
        let* toolpath := liftE (_findtool tool) in
        let* q := shellquote toolpath in
        ret (Some (tool, q))
      else _picktool_patterns rest path symlink changedelete
  end.

(** The loop over [ui.configitems("merge-tools")] that fills [tools] and
    [disabled]. *)
Fixpoint _picktool_pool (items : list (string * string))
    (tools : gmap string Z) (disabled : gset string) : exn + (gmap string Z * gset string) :=
  match items with
  | [] => inr (tools, disabled)
  | (k, v) :: rest =>
      let t := hd "" (split (Ascii.ascii_of_nat 46) k) in
      let tools' :=
        match tools !! t with
        | Some _ => inr tools
        | None =>
            match pyint H (_toolstr t "priority" None) with
            | inl e => inl e
            | inr p => inr (<[t := p]> tools)
            end
        end in
      match tools' with
      | inl e => inl e
      | inr tools' =>
          match _toolbool t "disabled" None with
          | inl e => inl e
          | inr d => _picktool_pool rest tools' (if d then {[t]} ∪ disabled else disabled)
          end
      end
  end.

(** Order of the tuples [(-p, tool)]. *)
Definition tuple_leb (a b : Z * string) : bool :=
  (a.1 <? b.1) || ((a.1 =? b.1) && String.leb a.2 b.2).

Fixpoint insert_sorted (x : Z * string) (l : list (Z * string)) : list (Z * string) :=
  match l with
  | [] => [x]
  | y :: l' => if tuple_leb x y then x :: l else y :: insert_sorted x l'
  end.

Definition sorted (l : list (Z * string)) : list (Z * string) :=
  foldr insert_sorted [] l.

(** [sorted([(-p, tool) for tool, p in tools.items() if tool not in disabled])] *)
Definition sortedtools (tools : gmap string Z) (disabled : gset string) : list (Z * string) :=
  sorted (omap (λ '(tool, p), if decide (tool ∈ disabled) then None else Some (- p, tool))
               (map_to_list tools)).

(** A tuple [(-p, tool)] among the candidates, where the tuples added for
    [ui.merge] and [hgmerge] carry [None]. *)
Definition withpriority (pt : Z * string) : option Z * string := (Some pt.1, pt.2).

(** The loop [for p, t in tools] and the last resort after it. *)
Fixpoint _picktool_first (cands : list (option Z * string)) (symlink binary changedelete : bool)
  : M world (option (string * option string)) :=
  match cands with
  | [] => ret None
  | (p, t) :: rest =>
      let* ok := check t None symlink binary changedelete in
      if ok then
        let* toolpath := liftE (_findtool t) in
        let* q := shellquote toolpath in
        ret (Some (t, q))
      else _picktool_first rest symlink binary changedelete
  end.

Definition _picktool_from (cands : list (option Z * string)) (path : string)
    (symlink binary changedelete : bool) : M world (string * option string) :=
  let* found := _picktool_first cands symlink binary changedelete in
  match found with
  | Some r => ret r
  | None =>
      (* internal merge or prompt as last resort *)
      if symlink || binary || changedelete then
        (if negb changedelete && negb (Nat.eqb (List.length cands) 0)
         then warn ("no tool found to merge " +:+ path +:+ LF)
         else ret tt) ;;
        ret (":prompt", None)
      else ret (":merge", None)
  end.

(** The string of a configuration value known to be set. *)
Definition strval (o : option string) : string := default "" o.

Definition _picktool (path : string) (binary symlink changedelete : bool)
  : M world (string * option string) :=
  (* forcemerge comes from command line arguments, highest priority *)
  let force := ui_config H "ui" "forcemerge" None in
  if str_truthy force then
    let* toolpath := liftE (_findtool (strval force)) in
    if changedelete && negb (supportscd toolpath) then ret (":prompt", None)
    else if str_truthy toolpath then
      let* q := shellquote toolpath in ret (strval force, q)
    else
      (* mimic HGMERGE if given tool not found *)
      ret (strval force, force)
  else
  (* HGMERGE takes next precedence *)
  let hgmerge := environ H "HGMERGE" in
  if str_truthy hgmerge then
    if changedelete && negb (supportscd hgmerge) then ret (":prompt", None)
    else ret (strval hgmerge, hgmerge)
  else
  (* then patterns *)
  let* bypattern :=
    _picktool_patterns (ui_configitems H "merge-patterns") path symlink changedelete in
  match bypattern with
  | Some r => ret r
  | None =>
      (* then merge tools *)
      let* (tools, disabled) := liftE (_picktool_pool (ui_configitems H "merge-tools") ∅ ∅) in
      let candidates := withpriority <$> sortedtools tools disabled in
      let uimerge := ui_config H "ui" "merge" None in
      if str_truthy uimerge then
        (* external tools defined in uimerge won't be able to handle
           change/delete conflicts *)
        if negb (bool_decide (is_Some (tools !! strval uimerge))) && negb changedelete then
          ret (strval uimerge, uimerge)
        else
          _picktool_from ((None, strval uimerge) :: candidates ++ [(None, "hgmerge")])
                         path symlink binary changedelete
      else
        _picktool_from (candidates ++ [(None, "hgmerge")]) path symlink binary changedelete
  end.

(** ** The merge primitives *)

Definition needstr (v : pyval) : M world string :=
  match v with PyStr x => ret x | _ => raise TypeError end.

(** Modelled from the spec: the simple merge primitive, "returns 0 on
    clean merge or non-zero on conflicts, writing result into local".  The
    host computes the merged text (if it writes one) and the status from
    the three contents. *)
Definition simplemerge (fcd fca fco : filectx) (opts : smopts) : M world pyval :=
  emit (ev_simplemerge fcd) ;;
  let* l := data fcd in let* l := needstr l in
  let* b := data fca in let* b := needstr b in
  let* o := data fco in let* o := needstr o in
  let '(text, r) := simplemerge_text H opts l b o in
  (match text with
   | Some t => let* fl := flags fcd in write fcd (PyStr t) fl
   | None => ret tt
   end) ;;
  ret (PyInt r).

(** Modelled from the spec: the tag merge module, which is "likewise
    external"; it gives [(success, status)]. *)
Definition tagmerge_merge (fcd fco fca : filectx) : M world (pyval * pyval) :=
  emit (ev_tagmerge fcd) ;;
  let* l := data fcd in let* l := needstr l in
  let* o := data fco in let* o := needstr o in
  let* b := data fca in let* b := needstr b in
  let '(text, success, r) := tagmerge_text H l o b in
  (match text with
   | Some t => let* fl := flags fcd in write fcd (PyStr t) fl
   | None => ret tt
   end) ;;
  ret (PyBool success, PyInt r).

(** ** Labels *)

Definition _defaultconflictlabels : list string := ["local"; "other"].

(** [if not labels: labels = _defaultconflictlabels] *)
Definition labels_or_default (labels : option (list string)) : list string :=
  match labels with
  | None | Some [] => _defaultconflictlabels
  | Some l => l
  end.

(** [if len(labels) < 3: labels.append("base")]; the list is given back
    extended (that the append is made in place, on a list the caller may
    share, plays no part in what is stated below). *)
Definition append_base (labels : list string) : list string :=
  if (List.length labels <? 3)%nat then labels ++ ["base"] else labels.

(** [l[i]] *)
Definition pyindex {A} (l : list A) (i : Z) : exn + A :=
  let n := Z.of_nat (List.length l) in
  let j := if i <? 0 then i + n else i in
  if (0 <=? j) && (j <? n) then
    match l !! Z.to_nat j with Some x => inr x | None => inl IndexError end
  else inl IndexError.

(** [partextras]: the extra labels for use in prompts. *)
Definition partextras (labels : option (list string)) : exn + (string * string) :=
  match labels with
  | None => inr ("", "")
  | Some l =>
      match pyindex l 0, pyindex l 1 with
      | inr l0, inr l1 => inr (" [" +:+ l0 +:+ "]", " [" +:+ l1 +:+ "]")
      | inl e, _ => inl e
      | _, inl e => inl e
      end
  end.

(** ** Strategies without merge *)

Record toolconf_t := {
  tc_tool : string;
  tc_toolpath : option string;
  tc_binary : bool;
  tc_symlink : bool
}.

Definition _underlyingfctxifabsent (f : filectx) : filectx :=
  match f with
  | absentfilectx c p => fctx c p
  | _ => f
  end.

Definition _ilocal (fcd fco fca : filectx) : M world pyval :=
  ret (PyTuple [PyInt 0; PyBool (isabsent fcd)]).

Definition _iother (fcd fco fca : filectx) : M world pyval :=
  if isabsent fco then
    (* local changed, remote deleted -- 'deleted' picked *)
    remove (_underlyingfctxifabsent fcd) ;;
    ret (PyTuple [PyInt 0; PyBool true])
  else
    let* d := data fco in
    let* fl := flags fco in
    write (_underlyingfctxifabsent fcd) d fl ;;
    ret (PyTuple [PyInt 0; PyBool false]).

Definition _ifail (fcd fco fca : filectx) : M world pyval :=
  (* for change/delete conflicts write out the changed version, then fail *)
  (if isabsent fcd then
     let* d := data fco in
     let* fl := flags fco in
     write (_underlyingfctxifabsent fcd) d fl
   else ret tt) ;;
  ret (PyTuple [PyInt 1; PyBool false]).

Definition _localchangedotherdeletedmsg (l o fd : string) : string :=
  "local" +:+ l +:+ " changed " +:+ fd +:+ " which other" +:+ o +:+ " deleted" +:+ LF +:+
  "use (c)hanged version, (d)elete, or leave (u)nresolved?" +:+
  "$$ &Changed $$ &Delete $$ &Unresolved".

Definition _otherchangedlocaldeletedmsg (l o fd : string) : string :=
  "other" +:+ o +:+ " changed " +:+ fd +:+ " which local" +:+ l +:+ " deleted" +:+ LF +:+
  "use (c)hanged version, leave (d)eleted, or leave (u)nresolved?" +:+
  "$$ &Changed $$ &Deleted $$ &Unresolved".

Definition _keepmsg (l o fd : string) : string :=
  "keep (l)ocal" +:+ l +:+ ", take (o)ther" +:+ o +:+ ", or leave (u)nresolved for " +:+
  fd +:+ "?" +:+ "$$ &Local $$ &Other $$ &Unresolved".

Definition inmemoryconflict (msg : string) (fcd : filectx) : exn :=
  InMemoryMergeConflictsError msg [path fcd].

Definition _iprompt (fcd fco fca : filectx) (labels : option (list string)) : M world pyval :=
  let fd := path fcd in
  (* Avoid prompting during an in-memory merge since it doesn't support
     merge conflicts. *)
  if isinmemory (changectx_of fcd) then
    raise (inmemoryconflict "in-memory merge does not support file conflicts" fcd)
  else
    let* (l, o) := liftE (partextras labels) in
    try_except
      (let* choice :=
         (if isabsent fco then
            let* index := promptchoice (_localchangedotherdeletedmsg l o fd) 2 in
            liftE (pyindex ["local"; "other"; "unresolved"] index)
          else if isabsent fcd then
            let* index := promptchoice (_otherchangedlocaldeletedmsg l o fd) 2 in
            liftE (pyindex ["other"; "local"; "unresolved"] index)
          else
            let* index := promptchoice (_keepmsg l o fd) 2 in
            liftE (pyindex ["local"; "other"; "unresolved"] index)) in
       if String.eqb choice "other" then _iother fcd fco fca
       else if String.eqb choice "local" then _ilocal fcd fco fca
       else if String.eqb choice "unresolved" then _ifail fcd fco fca
       else ret PyNone)
      (λ e, match e with
            | ResponseExpected => emit (ui_write LF) ;; _ifail fcd fco fca
            | _ => raise e
            end).

(** ** Files of the disk, as [util] reads and writes them *)

Definition _workingpath (ctx : filectx) : string := repo_wjoin H (path ctx).

Definition util_readfile (name : string) : M world string :=
  λ w, match disk w !! name with
       | Some d => (w, inr (fdata d))
       | None => (w, inl (IOError name))
       end.

Definition util_writefile (name : string) (d : pyval) : M world unit :=
  let* text := needstr d in
  modify (λ w,
    let fl := from_option fflags "" (disk w !! name) in
    add_log (ev_write (arbitraryfilectx name))
            (set_disk (<[name := {| fdata := text; fflags := fl |}]> (disk w)) w)).

Definition util_copyfile (src dest : string) : M world unit :=
  λ w, match disk w !! src with
       | Some d => (add_log (ev_write (arbitraryfilectx dest))
                            (set_disk (<[dest := d]> (disk w)) w), inr tt)
       | None => (w, inl (IOError src))
       end.

Definition util_unlink (name : string) : M world unit :=
  modify (λ w, add_log (ev_unlink name) (set_disk (delete name (disk w)) w)).

(** [repo.wwrite(filename, data, flags)] *)
Definition repo_wwrite (filename : string) (d : pyval) (fl : string) : M world unit :=
  let* text := needstr d in
  write (fctx workingctx filename) (PyStr (repo_wwritedata H filename text)) fl.

(** ** Premerge *)

Definition _restorebackup (fcd : filectx) (back : option filectx) : M world unit :=
  match back with
  | Some b =>
      let* d := data b in
      let* fl := flags fcd in
      write fcd d fl
  | None => raise (AttributeError "data")
  end.

Definition validkeep : list string := ["keep"; "keep-merge3"].

(** [premerge not in validkeep], for the boolean or string [premerge]. *)
Definition notin_validkeep (premerge : pyval) : bool :=
  match premerge with
  | PyStr p => negb (bool_decide (p ∈ validkeep))
  | _ => true
  end.

(** The [try: ... except error.ConfigError: ...] that reads the tool's
    [premerge] setting: a boolean, or one of the strings of [validkeep]. *)
Definition _premerge_setting (tool : string) (binary : bool) : exn + pyval :=
  match _toolbool tool "premerge" (Some (negb binary)) with
  | inr b => inr (PyBool b)
  | inl (ConfigError _) =>
      match _toolstr tool "premerge" (Some "") with
      | Some v =>
          let premerge := lower v in
          if notin_validkeep (PyStr premerge) then
            let _valid := join ", " ((λ v, "'" +:+ v +:+ "'") <$> validkeep) in
            inl (ConfigError (tool +:+ ".premerge not valid ('" +:+ premerge +:+
                              "' is neither boolean nor " +:+ _valid +:+ ")"))
          else inr (PyStr premerge)
      | None => inl (AttributeError "lower")
      end
  | inl e => inl e
  end.

(** The labels and options [_premerge] hands to simplemerge. *)
Definition _premerge_opts (premerge : pyval) (labels : option (list string)) : smopts :=
  let labels :=
    match premerge with
    | PyStr "keep-merge3" => Some (append_base (labels_or_default labels))
    | _ => labels
    end in
  {| quiet := true; label := labels; mode := None; localorother := None |}.

Definition _premerge (fcd fco fca : filectx) (toolconf : toolconf_t)
    (back : option filectx) (labels : option (list string)) : M world pyval :=
  if tc_symlink toolconf || isabsent fcd || isabsent fco then ret (PyInt 1)
  else
    (* do we attempt to simplemerge first? *)
    let* premerge := liftE (_premerge_setting (tc_tool toolconf) (tc_binary toolconf)) in
    if truthy premerge then
      let* r := simplemerge fcd fca fco (_premerge_opts premerge labels) in
      if negb (truthy r) then
        debug (" premerge successful" +:+ LF) ;; ret (PyInt 0)
      else
        (if notin_validkeep premerge
         then (* restore from backup and try again *) _restorebackup fcd back
         else ret tt) ;;
        ret (PyInt 1)   (* continue merging *)
    else ret (PyInt 1).

(** ** Strategies that merge *)

Definition _mergecheck (fcd fco fca : filectx) (toolconf : toolconf_t) : M world bool :=
  if tc_symlink toolconf then
    warn ("warning: internal " +:+ tc_tool toolconf +:+ " cannot merge symlinks for " +:+
          path fcd +:+ LF) ;;
    ret false
  else if isabsent fcd || isabsent fco then
    warn ("warning: internal " +:+ tc_tool toolconf +:+
          " cannot merge change/delete conflict for " +:+ path fcd +:+ LF) ;;
    ret false
  else ret true.

Definition _merge (fcd fco fca : filectx) (labels : option (list string)) (mode : string)
  : M world pyval :=
  let* r := simplemerge fcd fca fco
              {| quiet := false; label := labels; mode := Some mode; localorother := None |} in
  ret (PyTuple [PyBool true; r; PyBool false]).

Definition _iunion (fcd fco fca : filectx) (labels : option (list string)) : M world pyval :=
  _merge fcd fco fca labels "union".

Definition _imerge (fcd fco fca : filectx) (labels : option (list string)) : M world pyval :=
  _merge fcd fco fca labels "merge".

Definition _imerge3 (fcd fco fca : filectx) (labels : option (list string)) : M world pyval :=
  _imerge fcd fco fca (Some (append_base (labels_or_default labels))).

Definition _imergeauto (fcd fco fca : filectx) (labels : option (list string))
    (localorother : string) : M world (pyval * pyval) :=
  let* r := simplemerge fcd fca fco
              {| quiet := false; label := labels; mode := None;
                 localorother := Some localorother |} in
  ret (PyBool true, r).

Definition _imergelocal (fcd fco fca : filectx) (labels : option (list string)) : M world pyval :=
  let* (success, st) := _imergeauto fcd fco fca labels "local" in
  ret (PyTuple [success; st; PyBool false]).

Definition _imergeother (fcd fco fca : filectx) (labels : option (list string)) : M world pyval :=
  let* (success, st) := _imergeauto fcd fco fca labels "other" in
  ret (PyTuple [success; st; PyBool false]).

Definition _itagmerge (fcd fco fca : filectx) : M world pyval :=
  let* (success, st) := tagmerge_merge fcd fco fca in
  ret (PyTuple [success; st; PyBool false]).

Definition _idump (fcd fco fca : filectx) : M world pyval :=
  let a := _workingpath fcd in
  let fd := path fcd in
  match fcd with
  | fctx overlayworkingctx _ =>
      raise (inmemoryconflict "in-memory merge does not support the :dump tool." fcd)
  | _ =>
      let* dl := data fcd in
      util_writefile (a +:+ ".local") dl ;;
      let* do := data fco in
      let* flo := flags fco in
      repo_wwrite (fd +:+ ".other") do flo ;;
      let* da := data fca in
      let* fla := flags fca in
      repo_wwrite (fd +:+ ".base") da fla ;;
      ret (PyTuple [PyBool false; PyInt 1; PyBool false])
  end.

Definition _forcedump (fcd fco fca : filectx) : M world pyval :=
  _idump fcd fco fca.

Definition _iabort (fcd fco fca : filectx) (labels : option (list string)) : M world pyval :=
  if negb (isinmemory (changectx_of fcd)) then
    (* Support coming soon; it's tricker to do without IMM and has to be
       implemented per-command. *)
    raise (Abort "--tool :abort only works with in-memory merge")
  else
    let* res := _imerge fcd fco fca labels in
    if truthy res then
      raise (AbortMergeToolError "hit merge conflicts, and --tool :abort passed")
    else ret res.

(** ** The external driver *)

Definition _xmergeimm (fcd : filectx) : M world pyval :=
  raise (inmemoryconflict "in-memory merge does not support external merge tools" fcd).

(** The inner [temp(prefix, ctx)] of [_maketempfiles]. *)
Definition _maketempfiles_temp (prefix : string) (ctx : filectx) : M world string :=
  let '(fullbase, ext) := os_splitext H (path ctx) in
  let pre := os_basename H fullbase +:+ "~" +:+ prefix +:+ "." in
  let* w := get in
  let name := mkstemp H pre ext (disk w) in
  modify (λ w, add_log (ev_mkstemp name)
                 (set_disk (<[name := {| fdata := ""; fflags := "" |}]> (disk w)) w)) ;;
  let* d := data ctx in
  let* text := needstr d in
  modify (λ w, set_disk (<[name := {| fdata := repo_wwritedata H (path ctx) text;
                                       fflags := "" |}]> (disk w)) w) ;;
  ret name.

Definition _maketempfiles (fco fca : filectx) : M world (string * string) :=
  let* b := _maketempfiles_temp "base" fca in
  let* c := _maketempfiles_temp "other" fco in
  ret (b, c).

(** [ui.system(cmd, cwd=repo.root, environ=env, blockedtag="mergetool")] *)
Definition ui_system (cmd : string) (env : list (string * pyval)) : M world Z :=
  λ w, let '(d, r) := system H cmd env (disk w) in
       (add_log (ev_system cmd) (set_disk d w), inr r).

Definition _xmerge (mynode : string) (fcd fco fca : filectx) (toolconf : toolconf_t)
    (back : option filectx) (labels : option (list string)) : M world pyval :=
  let tool := tc_tool toolconf in
  if isabsent fcd || isabsent fco then
    warn ("warning: " +:+ tool +:+ " cannot merge change/delete conflict for " +:+
          path fcd +:+ LF) ;;
    ret (PyTuple [PyBool false; PyInt 1; PyNone])
  else
    let a := _workingpath fcd in
    let* (b, c) := _maketempfiles fco fca in
    try_finally
      (let* fld := flags fcd in
       let* flo := flags fco in
       let* fla := flags fca in
       let env := [("HG_FILE", PyStr (path fcd));
                   ("HG_MY_NODE", PyStr (short H mynode));
                   ("HG_OTHER_NODE", PyStr (ctxstr H (changectx_of fco)));
                   ("HG_BASE_NODE", PyStr (ctxstr H (changectx_of fca)));
                   ("HG_MY_ISLINK", PyBool (contains "l" fld));
                   ("HG_OTHER_ISLINK", PyBool (contains "l" flo));
                   ("HG_BASE_ISLINK", PyBool (contains "l" fla))] in
       let* args := needstr (ostr (_toolstr tool "args" None)) in
       let* (out, a) :=
         (if contains "$output" args then
            (* read input from backup, write to original *)
            match back with
            | Some bk => ret (a, repo_wvfs_join H (path bk))
            | None => raise (AttributeError "path")
            end
          else ret ("", a)) in
       let replace := [("local", a); ("base", b); ("other", c); ("output", out)] in
       let args := util_interpolate H "\$" replace args
                     (λ s, util_shellquote H (util_localpath H s)) in
       let* cmd := liftE (stradd (tc_toolpath toolconf) (Some (" " +:+ args))) in
       let* gui := liftE (_toolbool tool "gui" None) in
       (if gui
        then status ("running merge tool " +:+ tool +:+ " for file " +:+ path fcd +:+ LF)
        else ret tt) ;;
       debug ("launching merge tool: " +:+ cmd +:+ LF) ;;
       let* r := ui_system cmd env in
       debug ("merge tool returned: " +:+ pretty r +:+ LF) ;;
       ret (PyTuple [PyBool true; PyInt r; PyBool false]))
      (util_unlink b ;; util_unlink c).

(** ** Conflict labels *)

Definition _formatconflictmarker (ctx : changectx) (template : option string)
    (label : string) (pad : nat) : string :=
  let templateresult := render H template ctx in
  let label := ljust (label +:+ ":") (pad + 1) in
  let mark := label +:+ " " +:+ templateresult in
  let mark := if str_truthy (Some mark) then firstline mark else mark in
  (* 8 for the prefix of conflict marker lines (e.g. '<<<<<<< ') *)
  util_ellipsis H mark (80 - 8).

Definition _formatlabels (fcd fco fca : filectx) (labels : list string) : exn + list string :=
  let cd := changectx_of fcd in
  let co := changectx_of fco in
  let ca := changectx_of fca in
  let template := ui_config H "ui" "mergemarkertemplate" None in
  match labels with
  | [] => inl ValueError   (* max() of an empty sequence *)
  | _ =>
      let pad := foldr Nat.max O (String.length <$> labels) in
      match pyindex labels 0, pyindex labels 1 with
      | inr l0, inr l1 =>
          let newlabels := [_formatconflictmarker cd template l0 pad;
                            _formatconflictmarker co template l1 pad] in
          if (2 <? List.length labels)%nat then
            match pyindex labels 2 with
            | inr l2 => inr ((newlabels ++ [_formatconflictmarker ca template l2 pad])%list)
            | inl e => inl e
            end
          else inr newlabels
      | inl e, _ => inl e
      | _, inl e => inl e
      end
  end.

(** ** Backups *)

Definition _makebackup (wctx : changectx) (fcd : filectx) (premerge : bool)
  : M world (option filectx) :=
  if isabsent fcd then ret None
  else
    let a := _workingpath fcd in
    let back := scmutil_origpath H a in
    let inworkingdir :=
      startswith back (repo_wvfs_base H) && negb (startswith back (repo_vfs_base H)) in
    let isoverlay := match fcd with fctx overlayworkingctx _ => true | _ => false end in
    if isoverlay && inworkingdir then
      (* If the backup file is to be in the working directory, and we're
         merging in-memory, we must redirect the backup to the memory
         context so we don't disturb the working directory. *)
      let relpath := strdrop (String.length (repo_wvfs_base H) + 1) back in
      (if premerge then
         let* d := data fcd in
         let* fl := flags fcd in
         write (fctx wctx relpath) d fl
       else ret tt) ;;
      ret (Some (fctx wctx relpath))
    else
      (if premerge then
         if isoverlay then
           let* d := data fcd in util_writefile back d
         else util_copyfile a back
       else ret tt) ;;
      ret (Some (arbitraryfilectx back)).

(** ** Post-check *)

(** The regular expressions of the conflict scan: literals, [.*] and
    alternation. *)
Inductive regex :=
| re_lit (s : string)
| re_anystar
| re_seq (a b : regex)
| re_alt (a b : regex).

Fixpoint suffixes (s : string) : list string :=
  s :: match s with
       | EmptyString => []
       | String _ s' => suffixes s'
       end.

(** Backtracking match of [r] at the head of [s], continuing with [k] on
    what is left; [s] is one line, so [.] takes any of its characters. *)
Fixpoint rematch (r : regex) (s : string) (k : string → bool) : bool :=
  match r with
  | re_lit p => String.prefix p s && k (strdrop (String.length p) s)
  | re_anystar => existsb k (suffixes s)
  | re_seq a b => rematch a s (λ s', rematch b s' k)
  | re_alt a b => rematch a s k || rematch b s k
  end.

(** [re.search("^(r)$", data, re.MULTILINE)]: under [MULTILINE] the
    anchors hold at the start and end of every line and [.] never takes a
    newline, so the search is for a line that [r] matches whole. *)
Definition re_search_multiline (r : regex) (text : string) : bool :=
  existsb (λ line, rematch r line (String.eqb "")) (split (Ascii.ascii_of_nat 10) text).

(** The alternation of the scan: seven [<] and a space before anything,
    seven [=] alone, or seven [>] and a space before anything. *)
Definition conflictmarkers : regex :=
  re_alt (re_seq (re_lit "<<<<<<< ") re_anystar)
         (re_alt (re_lit "=======")
                 (re_seq (re_lit ">>>>>>> ") re_anystar)).

Definition _eoltype (d : string) : option string :=
  if contains NUL d then None          (* binary *)
  else if contains CRLF d then Some CRLF   (* Windows *)
  else if contains CR d then Some CR       (* Old Mac *)
  else if contains LF d then Some LF       (* UNIX *)
  else None.                               (* unknown *)

Definition _matcheol (file : string) (back : filectx) : M world unit :=
  let* bd := data back in
  let* bd := needstr bd in
  match _eoltype bd with
  | Some tostyle =>
      let* d := util_readfile file in
      match _eoltype d with
      | Some style =>
          let newdata := replace d style tostyle in
          if negb (String.eqb newdata d) then util_writefile file (PyStr newdata)
          else ret tt
      | None => ret tt
      end
  | None => ret tt
  end.

(** [_toolbool(ui, tool, part) or name in _toollist(ui, tool, "check")] *)
Definition toolchecks (tool part name : string) : exn + bool :=
  match _toolbool tool part None with
  | inl e => inl e
  | inr true => inr true
  | inr false => inr (bool_decide (name ∈ _toollist tool "check"))
  end.

Definition _check (r : pyval) (tool : string) (fcd : filectx) (back : option filectx)
  : M world pyval :=
  let fd := path fcd in
  let* r :=
    (if negb (truthy r) then
       let* scan := liftE (toolchecks tool "checkconflicts" "conflicts") in
       if scan then
         let* d := data fcd in
         let* text := needstr d in
         if re_search_multiline conflictmarkers text then ret (PyInt 1) else ret r
       else ret r
     else ret r) in
  let* (r, checked) :=
    (if bool_decide ("prompt" ∈ _toollist tool "check") then
       let* answer := promptchoice ("was merge of '" +:+ fd +:+ "' successful (yn)?" +:+
                                    "$$ &Yes $$ &No") 1 in
       if negb (answer =? 0) then ret (PyInt 1, true) else ret (r, true)
     else ret (r, false)) in
  let* r :=
    (if negb (truthy r) && negb checked then
       let* changed := liftE (toolchecks tool "checkchanged" "changed") in
       if changed then
         match back with
         | Some bk =>
             let* differs := cmp fcd bk in
             if negb differs then
               let* answer := promptchoice (" output file " +:+ fd +:+ " appears unchanged" +:+
                                            LF +:+ "was merge successful (yn)?" +:+
                                            "$$ &Yes $$ &No") 1 in
               if negb (answer =? 0) then ret (PyInt 1) else ret r
             else ret r
         | None => ret r
         end
       else ret r
     else ret r) in
  (match back with
   | Some bk =>
       let* fixeol := liftE (_toolbool tool "fixeol" None) in
       if fixeol then _matcheol (_workingpath fcd) bk else ret tt
   | None => ret tt
   end) ;;
  ret r.

(** ** The orchestrator *)

Definition _haltmerge {A} : M world A :=
  raise (InterventionRequired "merge halted after failed merge (see hg resolve)").

Definition _onfilemergefailure : M world unit :=
  let action := ui_config H "merge" "on-failure" None in
  (if bool_decide (action = Some "prompt") then
     let* answer := promptchoice "continue merge operation (yn)?$$ &Yes $$ &No" 0 in
     if answer =? 1 then _haltmerge else ret tt
   else ret tt) ;;
  (if bool_decide (action = Some "halt") then _haltmerge else ret tt).
  (* default action is 'continue', in which case we neither prompt nor halt *)

(** What [func] is bound to: a registered function, or one of the two
    external drivers. *)
Inductive funcobj :=
| internalfunc (f : strategy)
| f_xmergeimm
| f_xmerge.

(** [func(repo, mynode, orig, fcd, fco, fca, toolconf, labels)], the call
    of a function of merge type [nomerge]. *)
Definition call_nomerge (f : strategy) (fcd fco fca : filectx)
    (labels : option (list string)) : M world pyval :=
  match f with
  | f_iprompt => _iprompt fcd fco fca labels
  | f_ilocal => _ilocal fcd fco fca
  | f_iother => _iother fcd fco fca
  | f_ifail => _ifail fcd fco fca
  | _ => raise TypeError   (* not of merge type nomerge *)
  end.

(** [func(repo, mynode, orig, fcd, fco, fca, toolconf, files, labels=labels)] *)
Definition call_merge (func : funcobj) (mynode : string) (fcd fco fca : filectx)
    (toolconf : toolconf_t) (back : option filectx) (labels : option (list string))
  : M world pyval :=
  match func with
  | internalfunc f_iabort => _iabort fcd fco fca labels
  | internalfunc f_iunion => _iunion fcd fco fca labels
  | internalfunc f_imerge => _imerge fcd fco fca labels
  | internalfunc f_imerge3 => _imerge3 fcd fco fca labels
  | internalfunc f_imergelocal => _imergelocal fcd fco fca labels
  | internalfunc f_imergeother => _imergeother fcd fco fca labels
  | internalfunc f_itagmerge => _itagmerge fcd fco fca
  | internalfunc f_idump => _idump fcd fco fca
  | internalfunc f_forcedump => _forcedump fcd fco fca
  | internalfunc _ => raise TypeError   (* of merge type nomerge *)
  | f_xmergeimm => _xmergeimm fcd
  | f_xmerge => _xmerge mynode fcd fco fca toolconf back labels
  end.

Definition call_precheck (p : precheckfn) (fcd fco fca : filectx) (toolconf : toolconf_t)
  : M world bool :=
  match p with f_mergecheck => _mergecheck fcd fco fca toolconf end.

(** [a == (b, c)] unpacking of what a function returned. *)
Definition unpack2 {S} (v : pyval) : M S (pyval * pyval) :=
  match v with
  | PyTuple [a; b] => ret (a, b)
  | PyTuple _ => raise ValueError
  | _ => raise TypeError
  end.

Definition unpack3 {S} (v : pyval) : M S (pyval * pyval * pyval) :=
  match v with
  | PyTuple [a; b; c] => ret (a, b, c)
  | PyTuple _ => raise ValueError
  | _ => raise TypeError
  end.

(** [template % arg] for a template with one [%s]. *)
Definition fmt (template arg : string) : string := replace template "%s" arg.

Definition bytestr (b : bool) : string := if b then "True" else "False".

(** The file properties [_filemerge] probes before it picks a tool:
    [binary], [symlink] and [changedelete]. *)
Definition probe (fcd fco fca : filectx) : M world (bool * bool * bool) :=
  let* binary :=
    (let* bd := isbinary fcd in
     if bd then ret true
     else let* bo := isbinary fco in
          if bo then ret true else isbinary fca) in
  let* fld := flags fcd in
  let* flo := flags fco in
  let symlink := contains "l" (fld +:+ flo) in
  let changedelete := isabsent fcd || isabsent fco in
  ret (binary, symlink, changedelete).

(** The local variable [r] of [_filemerge], which its [finally] clause
    reads, is kept beside the world while the [try] block runs. *)
Definition lift {A} (m : M world A) : M (world * pyval) A :=
  λ s, match m s.1 with (w', res) => ((w', s.2), res) end.
Definition set_r (v : pyval) : M (world * pyval) unit := λ s, ((s.1, v), inr tt).
Definition get_r : M (world * pyval) pyval := λ s, (s, inr s.2).
Definition with_r {A} (init : pyval) (m : M (world * pyval) A) : M world A :=
  λ w, match m (w, init) with (s', res) => (s'.1, res) end.

(** [onfailure] reported: the in-memory error, or the warning. *)
Definition report_onfailure (wctx : changectx) (fcd : filectx) (onfail : option string)
    (relfd : string) : M world unit :=
  match onfail with
  | Some msg =>
      if str_truthy onfail then
        if isinmemory wctx then
          raise (inmemoryconflict "in-memory merge does not support merge conflicts" fcd)
        else warn (fmt msg relfd)
      else ret tt
  | None => ret tt
  end.

(** The labels the [try] block of [_filemerge] settles on. *)
Definition _filemerge_labels (fcd fco fca : filectx) (labels : option (list string))
  : exn + list string :=
  let markerstyle := ui_config H "ui" "mergemarkers" None in
  let labels := labels_or_default labels in
  if negb (bool_decide (markerstyle = Some "basic"))
  then _formatlabels fcd fco fca labels
  else inr labels.

(** The [try] block of [_filemerge]. *)
Definition _filemerge_try (premerge : bool) (wctx : changectx) (mynode : string)
    (fcd fco fca : filectx) (func : funcobj) (mtype : mergetype_t) (onfail : option string)
    (toolconf : toolconf_t) (back : option filectx) (labels : option (list string))
    (relfd : string) : M (world * pyval) pyval :=
  let* labels := liftE (_filemerge_labels fcd fco fca labels) in
  if premerge && bool_decide (mtype = fullmerge) then
    let* r := lift (_premerge fcd fco fca toolconf back (Some labels)) in
    set_r r ;;
    (* complete if premerge successful (r is 0) *)
    ret (PyTuple [PyBool (negb (truthy r)); r; PyBool false])
  else
    let* res := lift (call_merge func mynode fcd fco fca toolconf back (Some labels)) in
    let* (nr, deleted) := unpack3 res in
    let '(needcheck, r) := nr in
    set_r r ;;
    (if truthy needcheck then
       let* r := lift (_check r (tc_tool toolconf) fcd back) in set_r r
     else ret tt) ;;
    let* r := get_r in
    (if truthy r then
       lift (report_onfailure wctx fcd onfail relfd) ;;
       lift _onfilemergefailure
     else ret tt) ;;
    ret (PyTuple [PyBool true; r; deleted]).

(** The [finally] clause of [_filemerge]. *)
Definition _filemerge_finally (back : option filectx) : M (world * pyval) unit :=
  let* r := get_r in
  match back with
  | Some bk => if negb (truthy r) then lift (remove bk) else ret tt
  | None => ret tt
  end.

(** The [try: ... finally: ...] statement of [_filemerge], entered with
    [r = 1]. *)
Definition _filemerge_tryfinally (premerge : bool) (wctx : changectx) (mynode : string)
    (fcd fco fca : filectx) (func : funcobj) (mtype : mergetype_t) (onfail : option string)
    (toolconf : toolconf_t) (back : option filectx) (labels : option (list string))
    (relfd : string) : M world pyval :=
  with_r (PyInt 1)
    (try_finally
       (_filemerge_try premerge wctx mynode fcd fco fca func mtype onfail
                       toolconf back labels relfd)
       (_filemerge_finally back)).

Definition _filemerge (premerge : bool) (wctx : changectx) (mynode orig : string)
    (fcd fco fca : filectx) (labels : option (list string)) : M world pyval :=
  let* differs := cmp fco fcd in
  if negb differs then   (* files identical? *)
    ret (PyTuple [PyBool true; PyNone; PyBool false])
  else
    let fd := path fcd in
    let relorig := repo_pathto H orig in
    let relfo := repo_pathto H (path fco) in
    let relfd := repo_pathto H fd in
    let* (bs, changedelete) := probe fcd fco fca in
    let '(binary, symlink) := bs in
    let* (tool, toolpath) := _picktool fd binary symlink changedelete in
    let tool :=
      if bool_decide (is_Some (internals reg !! tool)) && startswith tool "internal:"
      then (* normalize to new-style names (':merge' etc) *)
           strdrop (String.length "internal") tool
      else tool in
    debug ("picked tool '" +:+ tool +:+ "' for " +:+ fd +:+ " (binary " +:+ bytestr binary +:+
           " symlink " +:+ bytestr symlink +:+ " changedelete " +:+ bytestr changedelete +:+
           ")" +:+ LF) ;;
    let '(func, mtype, onfail, pre) :=
      match internals reg !! tool with
      | Some f => (internalfunc f, mergetype f, onfailure f, precheck f)
      | None =>
          (if isinmemory wctx then f_xmergeimm else f_xmerge,
           fullmerge, Some ("merging %s failed!" +:+ LF), None)
      end in
    let toolconf := {| tc_tool := tool; tc_toolpath := toolpath;
                       tc_binary := binary; tc_symlink := symlink |} in
    match func, mtype with
    | internalfunc f, nomerge =>
        let* res := call_nomerge f fcd fco fca labels in
        let* (r, deleted) := unpack2 res in
        ret (PyTuple [PyBool true; r; deleted])
    | _, _ =>
        (if premerge then
           if negb (String.eqb orig (path fco))
           then status ("merging " +:+ relorig +:+ " and " +:+ relfo +:+ " to " +:+ relfd +:+ LF)
           else status ("merging " +:+ relfd +:+ LF)
         else ret tt) ;;
        debug ("my " +:+ fctxstr H fcd +:+ " other " +:+ fctxstr H fco +:+ " ancestor " +:+
               fctxstr H fca +:+ LF) ;;
        let* passed :=
          match pre with
          | Some p => call_precheck p fcd fco fca toolconf
          | None => ret true
          end in
        if negb passed then
          report_onfailure wctx fcd onfail relfd ;;
          ret (PyTuple [PyBool true; PyInt 1; PyBool false])
        else
          let* back := _makebackup wctx fcd premerge in
          _filemerge_tryfinally premerge wctx mynode fcd fco fca func mtype onfail
                                toolconf back labels relfd
    end.

Definition premerge (wctx : changectx) (mynode orig : string) (fcd fco fca : filectx)
    (labels : option (list string)) : M world pyval :=
  _filemerge true wctx mynode orig fcd fco fca labels.

Definition filemerge (wctx : changectx) (mynode orig : string) (fcd fco fca : filectx)
    (labels : option (list string)) : M world pyval :=
  _filemerge false wctx mynode orig fcd fco fca labels.

End FileMerge.

(** ** A concrete host and repository

    Nothing is configured, no executable is found, backups go to
    [<file>.orig] and simplemerge reports a clean merge that keeps the
    local text; the variants below change one service each. *)

Module Scenario.

Definition plainhost : host := {|
  ui_config := λ _ _ d, d;
  ui_configbool := λ _ _ d, inr (default false d);
  ui_configlist := λ _ _, [];
  ui_configitems := λ _, [];
  environ := λ _, None;
  pyint := λ _, inr 0;
  util_binary := contains NUL;
  util_findexe := λ _, None;
  util_lookupreg := λ _ _, None;
  util_expandpath := λ p, p;
  util_shellquote := λ p, p;
  util_localpath := λ p, p;
  util_gui := false;
  util_ellipsis := λ s _, s;
  util_interpolate := λ _ _ s _, s;
  matchpat := λ _ _, false;
  repo_wjoin := λ p, "/repo/" +:+ p;
  repo_pathto := λ p, p;
  repo_wvfs_base := "/repo";
  repo_vfs_base := "/repo/.hg";
  repo_wvfs_join := λ p, "/repo/" +:+ p;
  repo_wwritedata := λ _ d, d;
  scmutil_origpath := λ a, a +:+ ".orig";
  short := λ n, n;
  ctxstr := λ _, "ctx";
  fctxstr := λ _, "fctx";
  render := λ _ _, "";
  simplemerge_text := λ _ l _ _, (Some l, 0);
  tagmerge_text := λ _ _ _, (None, true, 0);
  system := λ _ _ d, (d, 0);
  mkstemp := λ pre suf _, "/tmp/" +:+ pre +:+ suf;
  os_splitext := λ p, (p, "");
  os_basename := λ p, p
|}.

(** [h] with another configuration. *)
Definition with_config (h : host)
    (cfg : string → string → option string → option string)
    (cfgbool : string → string → option bool → exn + bool)
    (cfglist : string → string → list string)
    (cfgitems : string → list (string * string)) : host := {|
  ui_config := cfg;
  ui_configbool := cfgbool;
  ui_configlist := cfglist;
  ui_configitems := cfgitems;
  environ := environ h;
  pyint := pyint h;
  util_binary := util_binary h;
  util_findexe := util_findexe h;
  util_lookupreg := util_lookupreg h;
  util_expandpath := util_expandpath h;
  util_shellquote := util_shellquote h;
  util_localpath := util_localpath h;
  util_gui := util_gui h;
  util_ellipsis := util_ellipsis h;
  util_interpolate := util_interpolate h;
  matchpat := matchpat h;
  repo_wjoin := repo_wjoin h;
  repo_pathto := repo_pathto h;
  repo_wvfs_base := repo_wvfs_base h;
  repo_vfs_base := repo_vfs_base h;
  repo_wvfs_join := repo_wvfs_join h;
  repo_wwritedata := repo_wwritedata h;
  scmutil_origpath := scmutil_origpath h;
  short := short h;
  ctxstr := ctxstr h;
  fctxstr := fctxstr h;
  render := render h;
  simplemerge_text := simplemerge_text h;
  tagmerge_text := tagmerge_text h;
  system := system h;
  mkstemp := mkstemp h;
  os_splitext := os_splitext h;
  os_basename := os_basename h
|}.

(** [h] with another simplemerge. *)
Definition with_simplemerge (h : host)
    (sm : smopts → string → string → string → option string * Z) : host := {|
  ui_config := ui_config h;
  ui_configbool := ui_configbool h;
  ui_configlist := ui_configlist h;
  ui_configitems := ui_configitems h;
  environ := environ h;
  pyint := pyint h;
  util_binary := util_binary h;
  util_findexe := util_findexe h;
  util_lookupreg := util_lookupreg h;
  util_expandpath := util_expandpath h;
  util_shellquote := util_shellquote h;
  util_localpath := util_localpath h;
  util_gui := util_gui h;
  util_ellipsis := util_ellipsis h;
  util_interpolate := util_interpolate h;
  matchpat := matchpat h;
  repo_wjoin := repo_wjoin h;
  repo_pathto := repo_pathto h;
  repo_wvfs_base := repo_wvfs_base h;
  repo_vfs_base := repo_vfs_base h;
  repo_wvfs_join := repo_wvfs_join h;
  repo_wwritedata := repo_wwritedata h;
  scmutil_origpath := scmutil_origpath h;
  short := short h;
  ctxstr := ctxstr h;
  fctxstr := fctxstr h;
  render := render h;
  simplemerge_text := sm;
  tagmerge_text := tagmerge_text h;
  system := system h;
  mkstemp := mkstemp h;
  os_splitext := os_splitext h;
  os_basename := os_basename h
|}.

Definition file (d fl : string) : filedata := {| fdata := d; fflags := fl |}.

(** Two committed changesets: [base] holds [a.txt] as the ancestor has it,
    [other] as the side being merged in has it. *)
Definition history (base other : string) : gmap string (gmap string filedata) :=
  {[ "base" := {[ "a.txt" := file base "" ]}; "other" := {[ "a.txt" := file other "" ]} ]}.

(** A merge in memory: [a.txt] is held by the in-memory context. *)
Definition inmemory (local base other : string) : world := {|
  disk := ∅;
  mem := {[ "a.txt" := file local "" ]};
  revs := history base other;
  responses := [];
  log := []
|}.

(** A merge in the working directory: [a.txt] is on disk. *)
Definition ondisk (local base other : string) : world := {|
  disk := {[ "/repo/a.txt" := file local "" ]};
  mem := ∅;
  revs := history base other;
  responses := [];
  log := []
|}.

(** The disk once the backup of [a.txt] has been written. *)
Definition backedup (local base other : string) : world := {|
  disk := {[ "/repo/a.txt" := file local ""; "/repo/a.txt.orig" := file local "" ]};
  mem := ∅;
  revs := history base other;
  responses := [];
  log := []
|}.

Definition back_disk : filectx := arbitraryfilectx "/repo/a.txt.orig".

(** A simplemerge that finds a conflict and leaves markers. *)
Definition conflicttext (l o : string) : string :=
  "<<<<<<< local" +:+ LF +:+ l +:+ LF +:+ "=======" +:+ LF +:+ o +:+ LF +:+
  ">>>>>>> other" +:+ LF.

Definition conflicthost : host :=
  with_simplemerge plainhost (λ _ l _ o, (Some (conflicttext l o), 1)).

Definition toolconf_merge : toolconf_t :=
  {| tc_tool := ":merge"; tc_toolpath := None; tc_binary := false; tc_symlink := false |}.


(** A tool [mytool] with [checkconflicts] set, and the same with
    ["prompt"] in its [check] list as well. *)
Definition checkhost : host :=
  with_config plainhost (ui_config plainhost)
    (λ _ name d, if String.eqb name "mytool.checkconflicts" then inr true
                 else inr (default false d))
    (ui_configlist plainhost) (ui_configitems plainhost).

Definition prompthost : host :=
  with_config checkhost (ui_config checkhost) (ui_configbool checkhost)
    (λ _ name, if String.eqb name "mytool.check" then ["prompt"] else [])
    (ui_configitems checkhost).

Definition cleantext : string := "A" +:+ LF +:+ "B" +:+ LF.

(** The user has answered "no" (choice 1) ahead of the prompt. *)
Definition answering_no (w : world) : world := set_responses [Some 1] w.

(** [ui.merge] set to [tool], nothing else configured. *)
Definition uimergehost (tool : string) : host :=
  with_config plainhost
    (λ section name d,
       if String.eqb section "ui" && String.eqb name "merge" then Some tool else d)
    (ui_configbool plainhost) (ui_configlist plainhost) (ui_configitems plainhost).

(** [ui.forcemerge] set to [tool], as [--tool] does. *)
Definition forcehost (tool : string) : host :=
  with_config plainhost
    (λ section name d,
       if String.eqb section "ui" && String.eqb name "forcemerge" then Some tool else d)
    (ui_configbool plainhost) (ui_configlist plainhost) (ui_configitems plainhost).

Definition fcd_mem : filectx := fctx overlayworkingctx "a.txt".
Definition fcd_disk : filectx := fctx workingctx "a.txt".
Definition fco : filectx := fctx (changectx_rev "other") "a.txt".
Definition fca : filectx := fctx (changectx_rev "base") "a.txt".

End Scenario.

(** ** Notions the properties are stated with *)

(** File contexts that can be written and removed: the files of the
    working directory, of the in-memory context, and of the disk. *)
Definition writable (f : filectx) : bool :=
  match f with
  | fctx workingctx _ | fctx overlayworkingctx _ | arbitraryfilectx _ => true
  | _ => false
  end.

(** A line of one of the three conflict-marker forms. *)
Definition markerline (l : string) : bool :=
  String.prefix "<<<<<<< " l || String.eqb l "=======" || String.prefix ">>>>>>> " l.

(** Events other than the removal of a file through its context. *)
Definition not_remove (e : event) : Prop :=
  match e with ev_remove _ => False | _ => True end.

(** [m] only adds to the log, and never a removal; [lg] reads the log off
    the state [m] runs on. *)
Definition removes_nothing {S A} (lg : S → list event) (m : M S A) : Prop :=
  ∀ s s' res, m s = (s', res) → ∃ evs, lg s' = (lg s ++ evs)%list ∧ Forall not_remove evs.

(** The log of the world kept beside the local variable [r]. *)
Definition framelog (s : world * pyval) : list event := log s.1.

(** [m] leaves the world as it is. *)
Definition pure {A} (m : M world A) : Prop :=
  ∀ w w' res, m w = (w', res) → w' = w.


Section Capability.

Variables (H : host) (reg : registries) (symlink binary changedelete : bool).

(** The capability check lets [tool] through, or turns it down. *)
Definition accepted (tool : string) : Prop :=
  ∃ w w', check H reg tool None symlink binary changedelete w = (w', inr true).

Definition rejected (tool : string) : Prop :=
  ∃ w w', check H reg tool None symlink binary changedelete w = (w', inr false).

End Capability.

(** ** Notions the further properties are stated with *)

(** The name a registry key is an alias of: what follows [":"] or
    ["internal:"]. *)
Definition aliased (key : string) : option string :=
  if String.prefix ":" key then Some (strdrop 1 key)
  else if String.prefix "internal:" key then Some (strdrop 9 key)
  else None.

(** The name a key of [internalsdoc] documents: what follows [":"]. *)
Definition documented (key : string) : option string :=
  if String.prefix ":" key then Some (strdrop 1 key) else None.

(** ** Further hosts and worlds *)

Module Cases.

(** The tool [:merge] with [premerge = Keep]: not a boolean, and a
    simplemerge that conflicts. *)
Definition keephost : host :=
  Scenario.with_simplemerge
    (Scenario.with_config Scenario.plainhost
       (λ _ name d, if String.eqb name ":merge.premerge" then Some "Keep" else d)
       (λ _ name d, if String.eqb name ":merge.premerge"
                    then inl (ConfigError "not a boolean") else inr (default false d))
       (ui_configlist Scenario.plainhost) (ui_configitems Scenario.plainhost))
    (λ _ l _ o, (Some (Scenario.conflicttext l o), 1)).

(** The same with [premerge = sometimes]. *)
Definition badpremergehost : host :=
  Scenario.with_config Scenario.plainhost
    (λ _ name d, if String.eqb name ":merge.premerge" then Some "sometimes" else d)
    (λ _ name d, if String.eqb name ":merge.premerge"
                 then inl (ConfigError "not a boolean") else inr (default false d))
    (ui_configlist Scenario.plainhost) (ui_configitems Scenario.plainhost).

(** [merge.on-failure] set to [action]. *)
Definition onfailurehost (action : string) : host :=
  Scenario.with_config Scenario.plainhost
    (λ section name d,
       if String.eqb section "merge" && String.eqb name "on-failure" then Some action else d)
    (ui_configbool Scenario.plainhost) (ui_configlist Scenario.plainhost)
    (ui_configitems Scenario.plainhost).

(** A merge in memory whose destination is a symbolic link or not. *)
Definition mem_file (local fl : string) : world := {|
  disk := ∅;
  mem := {[ "a.txt" := Scenario.file local fl ]};
  revs := Scenario.history "B" "O";
  responses := [];
  log := []
|}.

(** [merge-patterns] holds [items], and [mp] says which patterns match. *)
Definition with_patterns (h : host) (items : list (string * string))
    (mp : string → string → bool) : host := {|
  ui_config := ui_config h;
  ui_configbool := ui_configbool h;
  ui_configlist := ui_configlist h;
  ui_configitems := λ section,
    if String.eqb section "merge-patterns" then items else ui_configitems h section;
  environ := environ h;
  pyint := pyint h;
  util_binary := util_binary h;
  util_findexe := util_findexe h;
  util_lookupreg := util_lookupreg h;
  util_expandpath := util_expandpath h;
  util_shellquote := util_shellquote h;
  util_localpath := util_localpath h;
  util_gui := util_gui h;
  util_ellipsis := util_ellipsis h;
  util_interpolate := util_interpolate h;
  matchpat := mp;
  repo_wjoin := repo_wjoin h;
  repo_pathto := repo_pathto h;
  repo_wvfs_base := repo_wvfs_base h;
  repo_vfs_base := repo_vfs_base h;
  repo_wvfs_join := repo_wvfs_join h;
  repo_wwritedata := repo_wwritedata h;
  scmutil_origpath := scmutil_origpath h;
  short := short h;
  ctxstr := ctxstr h;
  fctxstr := fctxstr h;
  render := render h;
  simplemerge_text := simplemerge_text h;
  tagmerge_text := tagmerge_text h;
  system := system h;
  mkstemp := mkstemp h;
  os_splitext := os_splitext h;
  os_basename := os_basename h
|}.

(** C sources go to a tool that is not installed, text files to [:other]. *)
Definition patternhost : host :=
  with_patterns Scenario.plainhost [("*.c", "gcc-merge"); ("*.txt", ":other")]
    (λ pat path, String.eqb pat "*.c" && String.eqb path "a.c"
                 || String.eqb pat "*.txt" && String.eqb path "a.txt").

Definition absent_other : filectx := absentfilectx (changectx_rev "other") "a.txt".
Definition absent_local : filectx := absentfilectx workingctx "a.txt".

End Cases.

(** * Properties *)

Local Open Scope list_scope.

(** ** The registry *)

Lemma colon_name_inj (a b : string) : ":" +:+ a = ":" +:+ b → a = b.
Proof. intros E. cbv in E. congruence. Qed.

Lemma internal_name_inj (a b : string) : "internal:" +:+ a = "internal:" +:+ b → a = b.
Proof. intros E. cbv in E. congruence. Qed.

Lemma colon_internal_ne (a b : string) : ":" +:+ a ≠ "internal:" +:+ b.
Proof. intros E. cbv in E. congruence. Qed.

Lemma colon_prefix (n : string) : String.prefix ":" (":" +:+ n) = true.
Proof. destruct n; reflexivity. Qed.

Lemma internal_prefix (n : string) : String.prefix "internal:" ("internal:" +:+ n) = true.
Proof. destruct n; reflexivity. Qed.

(** A key that is neither alias of a name of the list is left alone. *)
Lemma loadinternalmerge_items_other (l : list (string * strategy)) (reg : registries)
    (key : string) :
  (∀ n, n ∈ l.*1 → key ≠ ":" +:+ n ∧ key ≠ "internal:" +:+ n) →
  internals (foldl loadinternalmerge_item reg l) !! key = internals reg !! key.
Proof.
  revert reg. induction l as [|[n f] l IH]; intros reg Hkey; [done|].
  cbn [foldl]. rewrite IH.
  - destruct (Hkey n) as [H1 H2]; [apply elem_of_cons; by left|].
    cbn [loadinternalmerge_item internals].
    rewrite !lookup_insert_ne; done.
  - intros m Hm. apply Hkey. apply elem_of_cons. by right.
Qed.

Lemma loadinternalmerge_items_lookup (l : list (string * strategy)) (reg : registries)
    (name : string) (fn : strategy) :
  NoDup l.*1 → (name, fn) ∈ l →
  internals (foldl loadinternalmerge_item reg l) !! (":" +:+ name) = Some fn ∧
  internals (foldl loadinternalmerge_item reg l) !! ("internal:" +:+ name) = Some fn.
Proof.
  revert reg. induction l as [|[n f] l IH]; intros reg Hnd Hin.
  - by apply elem_of_nil in Hin.
  - cbn [fmap list_fmap fst] in Hnd. apply NoDup_cons in Hnd as [Hn Hnd].
    apply elem_of_cons in Hin as [Heq|Hin]; [|by apply IH].
    injection Heq as <- <-. cbn [foldl].
    assert (Hfresh : ∀ m, m ∈ l.*1 → name ≠ m) by (intros m Hm ->; done).
    split.
    + rewrite loadinternalmerge_items_other.
      * cbn [loadinternalmerge_item internals].
        rewrite lookup_insert_ne by (apply not_eq_sym, colon_internal_ne).
        apply lookup_insert_eq.
      * intros m Hm. split.
        -- intros E%colon_name_inj. by apply (Hfresh m).
        -- apply colon_internal_ne.
    + rewrite loadinternalmerge_items_other.
      * cbn [loadinternalmerge_item internals]. apply lookup_insert_eq.
      * intros m Hm. split.
        -- apply not_eq_sym, colon_internal_ne.
        -- intros E%internal_name_inj. by apply (Hfresh m).
Qed.

(** C2, as the registry is written: every name of the table is reachable
    under [":name"] and under ["internal:name"], both giving the function
    registered for it; a key of neither form, the bare name among them, is
    left as it was before the load. *)
Theorem loadinternalmerge_aliases (table : gmap string strategy) (reg : registries)
    (name : string) (fn : strategy) :
  table !! name = Some fn →
  internals (loadinternalmerge table reg) !! (":" +:+ name) = Some fn ∧
  internals (loadinternalmerge table reg) !! ("internal:" +:+ name) = Some fn ∧
  (∀ key, String.prefix ":" key = false → String.prefix "internal:" key = false →
          internals (loadinternalmerge table reg) !! key = internals reg !! key).
Proof.
  intros Hname. unfold loadinternalmerge.
  destruct (loadinternalmerge_items_lookup (map_to_list table) reg name fn) as [H1 H2].
  - apply NoDup_fst_map_to_list.
  - by apply elem_of_map_to_list.
  - split; [done|]. split; [done|].
    intros key Hc Hi. apply loadinternalmerge_items_other.
    intros n _. split; intros ->.
    + rewrite colon_prefix in Hc. discriminate.
    + rewrite internal_prefix in Hi. discriminate.
Qed.

Lemma loadinternalmerge_aliases_witness :
  internals loaded !! ":merge" = Some f_imerge ∧
  internals loaded !! "internal:merge" = Some f_imerge ∧
  (∀ key, String.prefix ":" key = false → String.prefix "internal:" key = false →
          internals loaded !! key = internals noregistries !! key).
Proof.
  apply (loadinternalmerge_aliases internaltool_table noregistries "merge" f_imerge).
  vm_compute. reflexivity.
Defined.

(** C2 as stated fails: after the load the bare name [merge] is not a key
    of [internals], while [":merge"] is. *)
Lemma loadinternalmerge_bare_name_unregistered :
  ¬ (∀ name fn, internaltool_table !! name = Some fn →
       internals loaded !! name = Some fn ∧
       internals loaded !! (":" +:+ name) = Some fn ∧
       internals loaded !! ("internal:" +:+ name) = Some fn).
Proof.
  intros Hall. destruct (Hall "merge" f_imerge) as [Hbare _].
  - vm_compute. reflexivity.
  - vm_compute in Hbare. discriminate.
Qed.

(** ** Running computations *)

Lemma bind_ok {S A B} (m : M S A) (k : A → M S B) (s s' : S) (a : A) :
  m s = (s', inr a) → bind m k s = k a s'.
Proof. intros E. unfold bind. by rewrite E. Qed.

Lemma bind_err {S A B} (m : M S A) (k : A → M S B) (s s' : S) (e : exn) :
  m s = (s', inl e) → bind m k s = (s', inl e).
Proof. intros E. unfold bind. by rewrite E. Qed.

Lemma bind_inv {S A B} (m : M S A) (k : A → M S B) (s s2 : S) (res : exn + B) :
  bind m k s = (s2, res) →
  (∃ s1 a, m s = (s1, inr a) ∧ k a s1 = (s2, res)) ∨
  (∃ e, m s = (s2, inl e) ∧ res = inl e).
Proof.
  unfold bind. destruct (m s) as [s1 [e|a]] eqn:E; intros Hk.
  - right. exists e. by injection Hk as <- <-.
  - left. eauto.
Qed.

(** ** The [abort] strategy *)

Lemma _imerge_returns_triple (H : host) (fcd fco fca : filectx)
    (labels : option (list string)) (w w' : world) (res : pyval) :
  _imerge H fcd fco fca labels w = (w', inr res) →
  ∃ r, res = PyTuple [PyBool true; r; PyBool false].
Proof.
  unfold _imerge, _merge. intros [(w1 & r & _ & Hret)|(e & _ & ?)]%bind_inv; [|done].
  injection Hret as _ <-. eauto.
Qed.

(** Whatever status the merge reports, [_iabort] raises once [_imerge]
    has returned: it tests the triple, not the status in it. *)
Lemma _iabort_raises_after_merge (H : host) (fcd fco fca : filectx)
    (labels : option (list string)) (w w' : world) (res : pyval) :
  isinmemory (changectx_of fcd) = true →
  _imerge H fcd fco fca labels w = (w', inr res) →
  _iabort H fcd fco fca labels w =
    (w', inl (AbortMergeToolError "hit merge conflicts, and --tool :abort passed")).
Proof.
  intros Hmem Hmerge. unfold _iabort. rewrite Hmem. cbn [negb].
  rewrite (bind_ok _ _ _ _ _ Hmerge).
  apply _imerge_returns_triple in Hmerge as [r ->]. reflexivity.
Qed.

(** C1 fails on the code: in an in-memory context, with a merge that is
    clean (status 0), [_iabort] still raises the abort-on-conflict error
    where the claim has it return. *)
Theorem iabort_raises_on_clean_merge :
  let w := Scenario.inmemory "L" "B" "O" in
  (_imerge Scenario.plainhost Scenario.fcd_mem Scenario.fco Scenario.fca None w).2
    = inr (PyTuple [PyBool true; PyInt 0; PyBool false]) ∧
  (_iabort Scenario.plainhost Scenario.fcd_mem Scenario.fco Scenario.fca None w).2
    = inl (AbortMergeToolError "hit merge conflicts, and --tool :abort passed").
Proof. split; vm_compute; reflexivity. Qed.

(** ** Reading file contexts *)

Lemma present_read_inv (H : host) (f : filectx) (w w' : world) (res : exn + filedata) :
  present_read H f w = (w', res) →
  w' = w ∧ (∀ d, res = inr d → stored H f w = Some d).
Proof.
  unfold present_read. destruct (stored H f w) as [d|]; intros [= <- <-]; split; try done.
  by intros ? [= ->].
Qed.

Lemma present_read_ok (H : host) (f : filectx) (w : world) (d : filedata) :
  stored H f w = Some d → present_read H f w = (w, inr d).
Proof. unfold present_read. by intros ->. Qed.

Lemma cmp_pure (H : host) (f g : filectx) : pure (cmp H f g).
Proof.
  intros w w' res. unfold cmp.
  destruct f; (destruct g; cbn [isabsent]; try by intros [= <- _]);
    (intros [(w1 & a & [-> _]%present_read_inv & Hk)|(e & [-> _]%present_read_inv & _)]%bind_inv;
     [|done]);
    (apply bind_inv in Hk as [(w2 & b & [-> _]%present_read_inv & Hk)|(e & [-> _]%present_read_inv & _)];
     [|done]);
    by injection Hk as <- _.
Qed.

(** ** The identity shortcut *)

(** C5: when [fco.cmp(fcd)] is false the orchestrator returns
    [(True, None, False)] at once and the world is what it was: no tool is
    picked, nothing is reported, no backup is made and no file is written. *)
Theorem filemerge_identical_shortcut (H : host) (reg : registries) (premerge : bool)
    (wctx : changectx) (mynode orig : string) (fcd fco fca : filectx)
    (labels : option (list string)) (w w' : world) :
  cmp H fco fcd w = (w', inr false) →
  _filemerge H reg premerge wctx mynode orig fcd fco fca labels w
    = (w, inr (PyTuple [PyBool true; PyNone; PyBool false])).
Proof.
  intros Hcmp. pose proof (cmp_pure H fco fcd _ _ _ Hcmp) as ->.
  unfold _filemerge. rewrite (bind_ok _ _ _ _ _ Hcmp). reflexivity.
Qed.

Lemma filemerge_identical_shortcut_witness :
  _filemerge Scenario.plainhost loaded true workingctx "node" "a.txt"
             Scenario.fcd_disk Scenario.fco Scenario.fca None (Scenario.ondisk "A" "B" "A")
    = (Scenario.ondisk "A" "B" "A", inr (PyTuple [PyBool true; PyNone; PyBool false])).
Proof.
  apply (filemerge_identical_shortcut _ _ _ _ _ _ _ _ _ _ _ (Scenario.ondisk "A" "B" "A")).
  vm_compute. reflexivity.
Defined.

(** ** Writing and removing *)

Lemma write_stored (H : host) (f : filectx) (s fl : string) (w : world) :
  writable f = true →
  ∃ w', write H f (PyStr s) fl w = (w', inr tt) ∧
        stored H f w' = Some {| fdata := s; fflags := fl |} ∧
        log w' = (log w ++ [ev_write f])%list.
Proof.
  intros Hw. destruct f as [[n| |] p|p|c p]; try discriminate; cbn [write];
    (eexists; split; [reflexivity|]; split; [|reflexivity]);
    cbn [stored add_log set_disk set_mem disk mem]; apply lookup_insert_eq.
Qed.


Lemma data_present (H : host) (f : filectx) (w : world) (d : filedata) :
  stored H f w = Some d → data H f w = (w, inr (PyStr (fdata d))).
Proof.
  intros Hs. destruct f; [| |discriminate];
    unfold data; by rewrite (bind_ok _ _ _ _ _ (present_read_ok H _ w d Hs)).
Qed.

Lemma flags_present (H : host) (f : filectx) (w : world) (d : filedata) :
  stored H f w = Some d → flags H f w = (w, inr (fflags d)).
Proof.
  intros Hs. destruct f; [| |discriminate];
    unfold flags; by rewrite (bind_ok _ _ _ _ _ (present_read_ok H _ w d Hs)).
Qed.

(** ** The [other] strategy *)



(** ** The external driver on a change/delete conflict *)

(** C9: with the local or the other side absent, [_xmerge] warns and
    returns [(False, 1, None)]; the warning is all that happens, so no
    temporary file is made and no command is run. *)
Theorem xmerge_refuses_changedelete (H : host) (mynode : string) (fcd fco fca : filectx)
    (toolconf : toolconf_t) (back : option filectx) (labels : option (list string))
    (w : world) :
  isabsent fcd || isabsent fco = true →
  _xmerge H mynode fcd fco fca toolconf back labels w
    = (add_log (ui_warn ("warning: " +:+ tc_tool toolconf +:+
                         " cannot merge change/delete conflict for " +:+ path fcd +:+ LF)) w,
       inr (PyTuple [PyBool false; PyInt 1; PyNone])).
Proof. intros Hcd. unfold _xmerge. rewrite Hcd. reflexivity. Qed.

Lemma xmerge_refuses_changedelete_witness :
  let toolconf := {| tc_tool := "kdiff3"; tc_toolpath := Some "/usr/bin/kdiff3";
                     tc_binary := false; tc_symlink := false |} in
  let w := Scenario.ondisk "X" "B" "O" in
  _xmerge Scenario.plainhost "node" Scenario.fcd_disk
          (absentfilectx (changectx_rev "other") "a.txt") Scenario.fca toolconf None None w
    = (add_log (ui_warn ("warning: kdiff3 cannot merge change/delete conflict for a.txt"
                         +:+ LF)) w,
       inr (PyTuple [PyBool false; PyInt 1; PyNone])).
Proof.
  intros toolconf w.
  apply (xmerge_refuses_changedelete Scenario.plainhost "node" Scenario.fcd_disk
           (absentfilectx (changectx_rev "other") "a.txt") Scenario.fca toolconf None None w).
  reflexivity.
Defined.

(** ** Absent file versions and the property probe *)

Lemma prefix_empty (s : string) : String.prefix "" s = true.
Proof. by destruct s. Qed.

Lemma contains_l_cons (c : Ascii.ascii) (s : string) :
  contains "l" (String c s) = Ascii.eqb c "l"%char || contains "l" s.
Proof.
  cbn [contains String.prefix].
  destruct (Ascii.ascii_dec "l" c) as [<-|Hne].
  - by rewrite prefix_empty.
  - rewrite (proj2 (Ascii.eqb_neq c "l"%char)); [done|congruence].
Qed.

(** ["l" in a + b] needs ["l"] in one of the two. *)
Lemma contains_l_app (a b : string) :
  contains "l" (a +:+ b) = contains "l" a || contains "l" b.
Proof.
  induction a as [|c a IH].
  - change ("" +:+ b) with b. by destruct b.
  - change (String c a +:+ b) with (String c (a +:+ b)).
    rewrite !contains_l_cons, IH. by rewrite orb_assoc.
Qed.

Lemma flags_inv (H : host) (f : filectx) (w w' : world) (fl : string) :
  flags H f w = (w', inr fl) →
  w' = w ∧ (contains "l" fl = true →
            ∃ d, isabsent f = false ∧ stored H f w = Some d ∧ contains "l" (fflags d) = true).
Proof.
  destruct f; cbn [flags];
    try (intros [(w1 & d & [-> Hd]%present_read_inv & [= <- <-])|(e & _ & ?)]%bind_inv;
         [|done]; split; [done|]; intros Hl; exists d; by rewrite (Hd d eq_refl)).
  intros [= <- <-]. split; [done|]. discriminate.
Qed.

Lemma isbinary_inv (H : host) (f : filectx) (w w' : world) (b : bool) :
  isbinary H f w = (w', inr b) →
  w' = w ∧ (b = true →
            ∃ d, isabsent f = false ∧ stored H f w = Some d ∧ util_binary H (fdata d) = true).
Proof.
  destruct f; cbn [isbinary];
    try (intros [(w1 & d & [-> Hd]%present_read_inv & [= <- <-])|(e & _ & ?)]%bind_inv;
         [|done]; split; [done|]; intros Hl; exists d; by rewrite (Hd d eq_refl)).
  intros [= <- <-]. split; [done|]. discriminate.
Qed.

(** C10: an absent file version has no size, no data, empty flags and is
    not binary; and when the probe of [_filemerge] classifies a merge as
    symlink (as binary), one of the sides it looks at is present, with a
    stored file that carries the ["l"] flag (that has binary content). *)
Theorem absent_side_never_classifies (H : host) :
  (∀ c p w,
     size H (absentfilectx c p) w = (w, inr PyNone) ∧
     data H (absentfilectx c p) w = (w, inr PyNone) ∧
     flags H (absentfilectx c p) w = (w, inr "") ∧
     isbinary H (absentfilectx c p) w = (w, inr false)) ∧
  (∀ fcd fco fca w w' binary symlink changedelete,
     probe H fcd fco fca w = (w', inr (binary, symlink, changedelete)) →
     (symlink = true →
      ∃ f d, (f = fcd ∨ f = fco) ∧ isabsent f = false ∧
             stored H f w = Some d ∧ contains "l" (fflags d) = true) ∧
     (binary = true →
      ∃ f d, (f = fcd ∨ f = fco ∨ f = fca) ∧ isabsent f = false ∧
             stored H f w = Some d ∧ util_binary H (fdata d) = true)).
Proof.
  split; [done|].
  intros fcd fco fca w w' binary symlink changedelete. unfold probe.
  intros [(w1 & b & Hb & Hk)|(e & _ & ?)]%bind_inv; [|done].
  apply bind_inv in Hk as [(w2 & fld & [-> Hfld]%flags_inv & Hk)|(e & _ & ?)]; [|done].
  apply bind_inv in Hk as [(w3 & flo & [-> Hflo]%flags_inv & Hk)|(e & _ & ?)]; [|done].
  injection Hk as _ <- <- _.
  assert (Hbin : w1 = w ∧ (b = true →
            ∃ f d, (f = fcd ∨ f = fco ∨ f = fca) ∧ isabsent f = false ∧
                   stored H f w = Some d ∧ util_binary H (fdata d) = true)).
  { apply bind_inv in Hb as [(v1 & bd & [-> Hbd]%isbinary_inv & Hb)|(e & _ & ?)]; [|done].
    destruct bd.
    - injection Hb as <- <-. split; [done|]. intros _.
      destruct (Hbd eq_refl) as (d & ? & ? & ?). exists fcd, d. auto.
    - apply bind_inv in Hb as [(v2 & bo & [-> Hbo]%isbinary_inv & Hb)|(e & _ & ?)]; [|done].
      destruct bo.
      + injection Hb as <- <-. split; [done|]. intros _.
        destruct (Hbo eq_refl) as (d & ? & ? & ?). exists fco, d. auto.
      + apply isbinary_inv in Hb as [-> Hba]. split; [done|]. intros Ht.
        destruct (Hba Ht) as (d & ? & ? & ?). exists fca, d. auto. }
  destruct Hbin as [-> Hbin]. split; [|done].
  rewrite contains_l_app. intros [Hl|Hl]%orb_true_iff.
  - destruct (Hfld Hl) as (d & ? & ? & ?). exists fcd, d. auto.
  - destruct (Hflo Hl) as (d & ? & ? & ?). exists fco, d. auto.
Qed.

Lemma absent_side_never_classifies_witness :
  let w := {| disk := {[ "/repo/a.txt" := Scenario.file "target" "l" ]}; mem := ∅;
              revs := Scenario.history "B" "O"; responses := []; log := [] |} in
  ∃ f d, (f = Scenario.fcd_disk ∨ f = absentfilectx (changectx_rev "other") "a.txt") ∧
         isabsent f = false ∧ stored Scenario.plainhost f w = Some d ∧
         contains "l" (fflags d) = true.
Proof.
  intros w.
  apply (proj2 (absent_side_never_classifies Scenario.plainhost) Scenario.fcd_disk
           (absentfilectx (changectx_rev "other") "a.txt") Scenario.fca w w false true true).
  - vm_compute. reflexivity.
  - reflexivity.
Defined.

(** ** The premerge driver *)

Lemma write_inv (H : host) (f : filectx) (v : pyval) (fl : string) (w w' : world) :
  write H f v fl w = (w', inr tt) →
  ∃ s, v = PyStr s ∧ writable f = true ∧
       stored H f w' = Some {| fdata := s; fflags := fl |}.
Proof.
  intros Hwr. destruct v as [| | |s|]; try discriminate.
  destruct (writable f) eqn:Hw.
  - destruct (write_stored H f s fl w Hw) as (w2 & Hwr2 & Hst & _).
    rewrite Hwr in Hwr2. injection Hwr2 as <-. eauto.
  - destruct f as [[n| |] p|p|c p]; discriminate.
Qed.

Lemma data_inv (H : host) (f : filectx) (w w' : world) (v : pyval) :
  data H f w = (w', inr v) →
  w' = w ∧ (∀ s, v = PyStr s → ∃ d, stored H f w = Some d ∧ fdata d = s).
Proof.
  destruct f; cbn [data];
    try (intros [(w1 & d & [-> Hd]%present_read_inv & [= <- <-])|(e & _ & ?)]%bind_inv;
         [|done]; split; [done|]; intros s [= <-]; exists d; by rewrite (Hd d eq_refl)).
  intros [= <- <-]. split; [done|]. discriminate.
Qed.




(** The restore of the witness does happen: the driver returns 1 with the
    local text back in place of the markers. *)
Example premerge_restores_local :
  let w := Scenario.backedup "L" "B" "O" in
  let run := _premerge Scenario.conflicthost Scenario.fcd_disk Scenario.fco Scenario.fca
                       Scenario.toolconf_merge (Some Scenario.back_disk) None w in
  run.2 = inr (PyInt 1) ∧
  stored Scenario.conflicthost Scenario.fcd_disk run.1 = Some (Scenario.file "L" "").
Proof. split; vm_compute; reflexivity. Qed.

(** ** The conflict scan of the post-check *)

Lemma bind_ret_l {S A B} (a : A) (k : A → M S B) : bind (ret a) k = k a.
Proof. reflexivity. Qed.

Lemma anystar_to_end (s : string) : existsb (String.eqb "") (suffixes s) = true.
Proof. induction s as [|c s IH]; [done|]. cbn [suffixes existsb]. by rewrite IH. Qed.

(** A literal matched up to the end of the line is the line. *)
Lemma lit_to_end (p l : string) :
  String.prefix p l && String.eqb "" (strdrop (String.length p) l) = String.eqb l p.
Proof.
  revert l. induction p as [|a p IH]; intros [|b l]; try done.
  cbn [String.prefix String.length strdrop String.eqb].
  destruct (Ascii.ascii_dec a b) as [->|Hne].
  - rewrite Ascii.eqb_refl. apply IH.
  - rewrite (proj2 (Ascii.eqb_neq b a)); [done|congruence].
Qed.

Lemma conflictmarkers_line (l : string) :
  rematch conflictmarkers l (String.eqb "") = markerline l.
Proof.
  unfold conflictmarkers, markerline. cbn [rematch].
  rewrite !anystar_to_end, !andb_true_r, lit_to_end. apply orb_assoc.
Qed.

(** The search of the scan finds a match exactly when some line of the
    text has one of the three marker forms. *)
Lemma conflictmarkers_search (text : string) :
  re_search_multiline conflictmarkers text
    = existsb markerline (split (Ascii.ascii_of_nat 10) text).
Proof.
  unfold re_search_multiline.
  induction (split (Ascii.ascii_of_nat 10) text) as [|l ls IH]; [done|].
  cbn [existsb]. by rewrite conflictmarkers_line, IH.
Qed.

Lemma promptchoice_inv (msg : string) (default : Z) (w w' : world) (res : exn + Z) :
  promptchoice msg default w = (w', res) →
  ∃ rs, w' = set_responses rs (add_log (ui_promptchoice msg default) w).
Proof.
  unfold promptchoice. destruct (responses w) as [|[i|] rs] eqn:E; intros [= <- _].
  - exists []. destruct w. cbn in *. by subst.
  - by exists rs.
  - by exists rs.
Qed.




(** ** The priority-pool step of the tool picker *)


(** The loop over the candidates returns the first one the capability
    check accepts; it ends without one when the check rejects them all. *)
Lemma _picktool_first_inv (H : host) (reg : registries) (cands : list (option Z * string))
    (symlink binary changedelete : bool) (w w' : world)
    (found : option (string * option string)) :
  _picktool_first H reg cands symlink binary changedelete w = (w', inr found) →
  match found with
  | Some (t, q) =>
      ∃ pre p post, cands = (pre ++ (p, t) :: post)%list ∧
                    Forall (λ c, rejected H reg symlink binary changedelete c.2) pre ∧
                    accepted H reg symlink binary changedelete t
  | None => Forall (λ c, rejected H reg symlink binary changedelete c.2) cands
  end.
Proof.
  revert w. induction cands as [|[p t] cands IH]; intros w.
  - intros [= <- <-]. constructor.
  - cbn [_picktool_first].
    intros [(w1 & ok & Hcheck & Hk)|(e & _ & ?)]%bind_inv; [|done].
    destruct ok.
    + apply bind_inv in Hk as [(w2 & toolpath & _ & Hk)|(e & _ & ?)]; [|done].
      apply bind_inv in Hk as [(w3 & q & _ & [= <- <-])|(e & _ & ?)]; [|done].
      exists [], p, cands. repeat split; [constructor|]. by exists w, w1.
    + apply IH in Hk. assert (rejected H reg symlink binary changedelete t) by (by exists w, w1).
      destruct found as [[t' q]|].
      * destruct Hk as (pre & p' & post & -> & Hpre & Hacc).
        exists ((p, t) :: pre), p', post. repeat split; [|done]. by constructor.
      * by constructor.
Qed.




(** ** Nothing but the [finally] clause removes a file *)

Section RemovesNothing.

Context {S : Type} (lg : S → list event).

Lemma rn_ret {A} (a : A) : removes_nothing lg (ret a).
Proof. intros s s' res [= <- _]. exists []. by rewrite app_nil_r. Qed.

Lemma rn_raise {A} (e : exn) : removes_nothing lg (raise (A:=A) e).
Proof. intros s s' res [= <- _]. exists []. by rewrite app_nil_r. Qed.

Lemma rn_liftE {A} (r : exn + A) : removes_nothing lg (liftE r).
Proof. destruct r; [apply rn_raise|apply rn_ret]. Qed.

Lemma rn_get : removes_nothing lg get.
Proof. intros s s' res [= <- _]. exists []. by rewrite app_nil_r. Qed.

Lemma rn_bind {A B} (m : M S A) (k : A → M S B) :
  removes_nothing lg m → (∀ a, removes_nothing lg (k a)) → removes_nothing lg (bind m k).
Proof.
  intros Hm Hk s s' res [(s1 & a & Hma & Hka)|(e & Hme & _)]%bind_inv.
  - destruct (Hm _ _ _ Hma) as (evs1 & E1 & F1).
    destruct (Hk a _ _ _ Hka) as (evs2 & E2 & F2).
    exists (evs1 ++ evs2). rewrite E2, E1, app_assoc. split; [done|by apply Forall_app].
  - by apply (Hm _ _ _ Hme).
Qed.

Lemma rn_try_finally {A} (body : M S A) (fin : M S unit) :
  removes_nothing lg body → removes_nothing lg fin → removes_nothing lg (try_finally body fin).
Proof.
  intros Hb Hf s s' res. unfold try_finally.
  destruct (body s) as [s1 r1] eqn:Eb. destruct (fin s1) as [s2 [e|[]]] eqn:Ef;
    intros [= <- _];
    destruct (Hb _ _ _ Eb) as (evs1 & E1 & F1); destruct (Hf _ _ _ Ef) as (evs2 & E2 & F2);
    exists (evs1 ++ evs2); rewrite E2, E1, app_assoc; (split; [done|by apply Forall_app]).
Qed.

Lemma rn_try_except {A} (body : M S A) (handler : exn → M S A) :
  removes_nothing lg body → (∀ e, removes_nothing lg (handler e)) →
  removes_nothing lg (try_except body handler).
Proof.
  intros Hb Hh s s' res. unfold try_except.
  destruct (body s) as [s1 [e|a]] eqn:Eb.
  - intros Hhe. destruct (Hb _ _ _ Eb) as (evs1 & E1 & F1).
    destruct (Hh e _ _ _ Hhe) as (evs2 & E2 & F2).
    exists (evs1 ++ evs2). rewrite E2, E1, app_assoc. split; [done|by apply Forall_app].
  - intros [= <- _]. by apply (Hb _ _ _ Eb).
Qed.

End RemovesNothing.

(** A computation that changes the world by [f], where [f] logs at most
    events that are not removals. *)
Lemma rn_modify (f : world → world) :
  (∀ w, ∃ evs, log (f w) = (log w ++ evs)%list ∧ Forall not_remove evs) →
  removes_nothing log (modify f).
Proof. intros Hf w w' res [= <- _]. apply Hf. Qed.

Lemma rn_emit (e : event) : not_remove e → removes_nothing log (emit e).
Proof.
  intros He. apply rn_modify. intros w. exists [e]. split; [done|]. by constructor.
Qed.

Lemma rn_pure {A} (m : M world A) : pure m → removes_nothing log m.
Proof. intros Hp w w' res ->%Hp. exists []. by rewrite app_nil_r. Qed.

Lemma present_read_pure (H : host) (f : filectx) : pure (present_read H f).
Proof. intros w w' res. by intros [-> _]%present_read_inv. Qed.

Lemma rn_lift {A} (m : M world A) : removes_nothing log m → removes_nothing framelog (lift m).
Proof.
  intros Hm [w r] s' res. unfold lift. cbn [fst snd].
  destruct (m w) as [w1 res1] eqn:E. intros [= <- _]. by apply (Hm _ _ _ E).
Qed.

Lemma rn_set_r (v : pyval) : removes_nothing framelog (set_r v).
Proof. intros s s' res [= <- _]. exists []. by rewrite app_nil_r. Qed.

Lemma rn_get_r : removes_nothing framelog get_r.
Proof. intros s s' res [= <- _]. exists []. by rewrite app_nil_r. Qed.

Create HintDb rn discriminated.

#[local] Hint Resolve rn_ret rn_raise rn_liftE rn_get rn_set_r rn_get_r : rn.
#[local] Hint Extern 1 (not_remove _) => exact I : rn.
#[local] Hint Extern 1 (Forall not_remove _) => repeat constructor : rn.

(** One step through a computation: into a bind, a branch or a lift. *)
Ltac rn_step :=
  lazymatch goal with
  | |- removes_nothing _ (bind _ _) => apply rn_bind; [|intros ?]
  | |- removes_nothing _ (lift _) => apply rn_lift
  | |- removes_nothing _ (try_finally _ _) => apply rn_try_finally
  | |- removes_nothing _ (try_except _ _) => apply rn_try_except; [|intros ?]
  | |- removes_nothing _ (if ?b then _ else _) => destruct b
  | |- removes_nothing _ (match ?x with _ => _ end) => destruct x
  | |- removes_nothing _ _ => solve [eauto with rn]
  end.

Ltac rn := repeat rn_step.

Lemma rn_warn (msg : string) : removes_nothing log (warn msg).
Proof. by apply rn_emit. Qed.
Lemma rn_note (msg : string) : removes_nothing log (note msg).
Proof. by apply rn_emit. Qed.
Lemma rn_status (msg : string) : removes_nothing log (status msg).
Proof. by apply rn_emit. Qed.
Lemma rn_debug (msg : string) : removes_nothing log (debug msg).
Proof. by apply rn_emit. Qed.

Lemma rn_promptchoice (msg : string) (default : Z) :
  removes_nothing log (promptchoice msg default).
Proof.
  intros w w' res [rs ->]%promptchoice_inv. exists [ui_promptchoice msg default].
  split; [done|]. by constructor.
Qed.

Lemma rn_present_read (H : host) (f : filectx) : removes_nothing log (present_read H f).
Proof. apply rn_pure, present_read_pure. Qed.

#[local] Hint Resolve rn_warn rn_note rn_status rn_debug rn_promptchoice rn_present_read : rn.

Lemma rn_data (H : host) (f : filectx) : removes_nothing log (data H f).
Proof. unfold data. rn. Qed.
Lemma rn_flags (H : host) (f : filectx) : removes_nothing log (flags H f).
Proof. unfold flags. rn. Qed.
Lemma rn_cmp (H : host) (f g : filectx) : removes_nothing log (cmp H f g).
Proof. apply rn_pure, cmp_pure. Qed.
Lemma rn_needstr (v : pyval) : removes_nothing log (needstr v).
Proof. unfold needstr. rn. Qed.

Lemma rn_write (H : host) (f : filectx) (d : pyval) (fl : string) :
  removes_nothing log (write H f d fl).
Proof.
  unfold write. rn; apply rn_modify; intros w; eexists [_]; (split; [reflexivity|]);
    by repeat constructor.
Qed.

#[local] Hint Resolve rn_data rn_flags rn_cmp rn_needstr rn_write : rn.

Lemma rn_util_readfile (name : string) : removes_nothing log (util_readfile name).
Proof.
  apply rn_pure. intros w w' res. unfold util_readfile.
  by destruct (disk w !! name); intros [= <- _].
Qed.

Lemma rn_util_writefile (name : string) (d : pyval) : removes_nothing log (util_writefile name d).
Proof.
  unfold util_writefile. rn. apply rn_modify. intros w. eexists [_].
  split; [reflexivity|]. by repeat constructor.
Qed.

Lemma rn_util_copyfile (src dest : string) : removes_nothing log (util_copyfile src dest).
Proof.
  intros w w' res. unfold util_copyfile. destruct (disk w !! src); intros [= <- _].
  - eexists [_]. split; [reflexivity|]. by repeat constructor.
  - exists []. by rewrite app_nil_r.
Qed.

Lemma rn_util_unlink (name : string) : removes_nothing log (util_unlink name).
Proof.
  apply rn_modify. intros w. eexists [_]. split; [reflexivity|]. by repeat constructor.
Qed.

Lemma rn_ui_system (H : host) (cmd : string) (env : list (string * pyval)) :
  removes_nothing log (ui_system H cmd env).
Proof.
  intros w w' res. unfold ui_system. destruct (system H cmd env (disk w)) as [d r].
  intros [= <- _]. eexists [_]. split; [reflexivity|]. by repeat constructor.
Qed.

#[local] Hint Resolve rn_util_readfile rn_util_writefile rn_util_copyfile rn_util_unlink
  rn_ui_system : rn.

Lemma rn_repo_wwrite (H : host) (filename : string) (d : pyval) (fl : string) :
  removes_nothing log (repo_wwrite H filename d fl).
Proof. unfold repo_wwrite. rn. Qed.

Lemma rn_simplemerge (H : host) (fcd fca fco : filectx) (opts : smopts) :
  removes_nothing log (simplemerge H fcd fca fco opts).
Proof. unfold simplemerge. rn. by apply rn_emit. Qed.

Lemma rn_tagmerge_merge (H : host) (fcd fco fca : filectx) :
  removes_nothing log (tagmerge_merge H fcd fco fca).
Proof. unfold tagmerge_merge. rn. by apply rn_emit. Qed.

Lemma rn_restorebackup (H : host) (fcd : filectx) (back : option filectx) :
  removes_nothing log (_restorebackup H fcd back).
Proof. unfold _restorebackup. rn. Qed.

#[local] Hint Resolve rn_repo_wwrite rn_simplemerge rn_tagmerge_merge rn_restorebackup : rn.

Lemma rn_premerge (H : host) (fcd fco fca : filectx) (toolconf : toolconf_t)
    (back : option filectx) (labels : option (list string)) :
  removes_nothing log (_premerge H fcd fco fca toolconf back labels).
Proof. unfold _premerge. rn. Qed.

Lemma rn_merge (H : host) (fcd fco fca : filectx) (labels : option (list string))
    (mode : string) : removes_nothing log (_merge H fcd fco fca labels mode).
Proof. unfold _merge. rn. Qed.

Lemma rn_imergeauto (H : host) (fcd fco fca : filectx) (labels : option (list string))
    (localorother : string) :
  removes_nothing log (_imergeauto H fcd fco fca labels localorother).
Proof. unfold _imergeauto. rn. Qed.

#[local] Hint Resolve rn_premerge rn_merge rn_imergeauto : rn.

Lemma rn_idump (H : host) (fcd fco fca : filectx) : removes_nothing log (_idump H fcd fco fca).
Proof. unfold _idump, inmemoryconflict. rn. Qed.

Lemma rn_iabort (H : host) (fcd fco fca : filectx) (labels : option (list string)) :
  removes_nothing log (_iabort H fcd fco fca labels).
Proof. unfold _iabort, _imerge. rn. Qed.

Lemma rn_maketempfiles_temp (H : host) (prefix : string) (ctx : filectx) :
  removes_nothing log (_maketempfiles_temp H prefix ctx).
Proof.
  unfold _maketempfiles_temp. destruct (os_splitext H (path ctx)) as [fullbase ext].
  rn; apply rn_modify; intros w.
  - eexists [_]. split; [reflexivity|]. by repeat constructor.
  - exists []. split; [by rewrite app_nil_r|constructor].
Qed.

#[local] Hint Resolve rn_idump rn_iabort rn_maketempfiles_temp : rn.

Lemma rn_xmerge (H : host) (mynode : string) (fcd fco fca : filectx) (toolconf : toolconf_t)
    (back : option filectx) (labels : option (list string)) :
  removes_nothing log (_xmerge H mynode fcd fco fca toolconf back labels).
Proof. unfold _xmerge, _maketempfiles. rn. Qed.

#[local] Hint Resolve rn_xmerge : rn.

Lemma rn_call_merge (H : host) (func : funcobj) (mynode : string) (fcd fco fca : filectx)
    (toolconf : toolconf_t) (back : option filectx) (labels : option (list string)) :
  removes_nothing log (call_merge H func mynode fcd fco fca toolconf back labels).
Proof.
  unfold call_merge, _iunion, _imerge3, _imerge, _imergelocal, _imergeother, _itagmerge,
    _forcedump, _xmergeimm.
  destruct func as [[]| |]; rn.
Qed.

Lemma rn_matcheol (H : host) (file : string) (back : filectx) :
  removes_nothing log (_matcheol H file back).
Proof. unfold _matcheol. rn. Qed.

#[local] Hint Resolve rn_call_merge rn_matcheol : rn.

Lemma rn_check (H : host) (r : pyval) (tool : string) (fcd : filectx)
    (back : option filectx) : removes_nothing log (_check H r tool fcd back).
Proof. unfold _check. rn. Qed.

Lemma rn_report_onfailure (wctx : changectx) (fcd : filectx)
    (onfail : option string) (relfd : string) :
  removes_nothing log (report_onfailure wctx fcd onfail relfd).
Proof. unfold report_onfailure. rn. Qed.

Lemma rn_onfilemergefailure (H : host) : removes_nothing log (_onfilemergefailure H).
Proof. unfold _onfilemergefailure, _haltmerge. rn. Qed.

#[local] Hint Resolve rn_check rn_report_onfailure rn_onfilemergefailure : rn.


(** ** The backup and the final status *)

Lemma lift_inv {A} (m : M world A) (s s' : world * pyval) (res : exn + A) :
  lift m s = (s', res) → m s.1 = (s'.1, res) ∧ s'.2 = s.2.
Proof. unfold lift. destruct (m s.1) as [w1 r1]. by intros [= <- <-]. Qed.

Lemma liftE_inv {S A} (r : exn + A) (s s' : S) (res : exn + A) :
  liftE r s = (s', res) → s' = s ∧ res = r.
Proof. destruct r; by intros [= <- <-]. Qed.






(** ** Whole runs of the orchestrator *)

(** A clean premerge with [:merge]: status 0, and the backup that was
    written is gone again. *)
Example premerge_clean_run :
  let run := premerge Scenario.plainhost loaded workingctx "node" "a.txt" Scenario.fcd_disk
                      Scenario.fco Scenario.fca None (Scenario.ondisk "L" "B" "O") in
  run.2 = inr (PyTuple [PyBool true; PyInt 0; PyBool false]) ∧
  stored Scenario.plainhost Scenario.back_disk run.1 = None ∧
  ev_write Scenario.back_disk ∈ log run.1 ∧
  last (log run.1) = Some (ev_remove Scenario.back_disk).
Proof.
  intros run. repeat split; try (vm_compute; reflexivity).
  vm_compute. repeat (first [apply list_elem_of_here | apply list_elem_of_further]).
Qed.

(** A merge with [:merge] that conflicts: status 1, the markers are in the
    destination and the backup still holds the local text. *)
Example filemerge_conflict_run :
  let run := filemerge Scenario.conflicthost loaded workingctx "node" "a.txt"
                       Scenario.fcd_disk Scenario.fco Scenario.fca None
                       (Scenario.backedup "L" "B" "O") in
  run.2 = inr (PyTuple [PyBool true; PyInt 1; PyBool false]) ∧
  stored Scenario.conflicthost Scenario.back_disk run.1 = Some (Scenario.file "L" "") ∧
  stored Scenario.conflicthost Scenario.fcd_disk run.1
    = Some (Scenario.file (Scenario.conflicttext "L" "O") "").
Proof. intros run. repeat split; vm_compute; reflexivity. Qed.

(** [--tool :abort] on an in-memory merge that is clean: the run ends in
    the abort-on-conflict error all the same. *)
Example filemerge_abort_clean_run :
  let run := filemerge (Scenario.forcehost ":abort") loaded overlayworkingctx "node" "a.txt"
                       Scenario.fcd_mem Scenario.fco Scenario.fca None
                       (Scenario.inmemory "L" "B" "O") in
  run.2 = inl (AbortMergeToolError "hit merge conflicts, and --tool :abort passed") ∧
  ev_simplemerge Scenario.fcd_mem ∈ log run.1 ∧
  stored (Scenario.forcehost ":abort") Scenario.fcd_mem run.1 = Some (Scenario.file "L" "").
Proof.
  intros run. repeat split; try (vm_compute; reflexivity).
  vm_compute. repeat (first [apply list_elem_of_here | apply list_elem_of_further]).
Qed.

(** * Further properties *)

(** ** The registry after a load *)

Lemma prefix_strdrop (p s : string) :
  String.prefix p s = true → s = p +:+ strdrop (String.length p) s.
Proof.
  revert s. induction p as [|a p IH]; intros [|b s]; try done.
  cbn [String.prefix]. destruct (Ascii.ascii_dec a b) as [->|]; [|done].
  intros Hp. change (String b p +:+ ?t) with (String b (p +:+ t)).
  cbn [String.length strdrop]. f_equal. by apply IH.
Qed.

Lemma aliased_inv (key n : string) :
  aliased key = Some n → key = ":" +:+ n ∨ key = "internal:" +:+ n.
Proof.
  unfold aliased. destruct (String.prefix ":" key) eqn:Hc.
  - intros [= <-]. left. by apply (prefix_strdrop ":").
  - destruct (String.prefix "internal:" key) eqn:Hi; [|done].
    intros [= <-]. right. by apply (prefix_strdrop "internal:").
Qed.

Lemma aliased_colon (n : string) : aliased (":" +:+ n) = Some n.
Proof. unfold aliased. by rewrite colon_prefix. Qed.

Lemma aliased_internal (n : string) : aliased ("internal:" +:+ n) = Some n.
Proof.
  unfold aliased. rewrite internal_prefix.
  change (String.prefix ":" ("internal:" +:+ n)) with false. reflexivity.
Qed.

Lemma loadinternalmerge_items_doc_other (l : list (string * strategy)) (reg : registries)
    (key : string) :
  (∀ n, n ∈ l.*1 → key ≠ ":" +:+ n) →
  internalsdoc (foldl loadinternalmerge_item reg l) !! key = internalsdoc reg !! key.
Proof.
  revert reg. induction l as [|[n f] l IH]; intros reg Hkey; [done|].
  cbn [foldl]. rewrite IH.
  - cbn [loadinternalmerge_item internalsdoc]. apply lookup_insert_ne, not_eq_sym, Hkey.
    apply elem_of_cons. by left.
  - intros m Hm. apply Hkey, elem_of_cons. by right.
Qed.

Lemma loadinternalmerge_items_doc_lookup (l : list (string * strategy)) (reg : registries)
    (name : string) (fn : strategy) :
  NoDup l.*1 → (name, fn) ∈ l →
  internalsdoc (foldl loadinternalmerge_item reg l) !! (":" +:+ name) = Some fn.
Proof.
  revert reg. induction l as [|[n f] l IH]; intros reg Hnd Hin.
  - by apply elem_of_nil in Hin.
  - cbn [fmap list_fmap fst] in Hnd. apply NoDup_cons in Hnd as [Hn Hnd].
    apply elem_of_cons in Hin as [Heq|Hin]; [|by apply IH].
    injection Heq as <- <-. cbn [foldl]. rewrite loadinternalmerge_items_doc_other.
    + cbn [loadinternalmerge_item internalsdoc]. apply lookup_insert_eq.
    + intros m Hm E%colon_name_inj. by subst.
Qed.

Lemma internals_after_load (table : gmap string strategy) (reg : registries)
    (key : string) :
  internals (loadinternalmerge table reg) !! key =
    match aliased key ≫= (table !!.) with
    | Some fn => Some fn
    | None => internals reg !! key
    end.
Proof.
  destruct (aliased key ≫= (table !!.)) as [fn|] eqn:Hal.
  - apply bind_Some in Hal as (n & Hn & Hfn).
    destruct (loadinternalmerge_items_lookup (map_to_list table) reg n fn) as [H1 H2].
    + apply NoDup_fst_map_to_list.
    + by apply elem_of_map_to_list.
    + by destruct (aliased_inv _ _ Hn) as [-> | ->].
  - apply loadinternalmerge_items_other. intros n Hn.
    apply list_elem_of_fmap in Hn as ([n' fn] & -> & Hin%elem_of_map_to_list).
    cbn [fst]. split; intros ->.
    + rewrite aliased_colon in Hal. change (table !! n' = None) in Hal. congruence.
    + rewrite aliased_internal in Hal. change (table !! n' = None) in Hal. congruence.
Qed.

Lemma internalsdoc_after_load (table : gmap string strategy)
    (reg : registries) (key : string) :
  internalsdoc (loadinternalmerge table reg) !! key =
    match documented key ≫= (table !!.) with
    | Some fn => Some fn
    | None => internalsdoc reg !! key
    end.
Proof.
  destruct (documented key ≫= (table !!.)) as [fn|] eqn:Hal.
  - apply bind_Some in Hal as (n & Hn & Hfn).
    unfold documented in Hn. destruct (String.prefix ":" key) eqn:Hc; [|done].
    injection Hn as <-. rewrite (prefix_strdrop ":" key Hc) at 1.
    apply loadinternalmerge_items_doc_lookup; [apply NoDup_fst_map_to_list|].
    by apply elem_of_map_to_list.
  - apply loadinternalmerge_items_doc_other. intros n Hn.
    apply list_elem_of_fmap in Hn as ([n' fn] & -> & Hin%elem_of_map_to_list).
    cbn [fst]. intros ->. unfold documented in Hal. rewrite colon_prefix in Hal.
    change (table !! strdrop 1 (":" +:+ n') = None) in Hal.
    change (strdrop 1 (":" +:+ n')) with n' in Hal. congruence.
Qed.

(** What a lookup in [internals] gives after a load, for every key: the
    function the table registers for the name the key is an alias of, and
    what was there before for any other key. *)
Theorem loadinternalmerge_internals_lookup (table : gmap string strategy) (reg : registries)
    (key : string) :
  internals (loadinternalmerge table reg) !! key =
    match aliased key ≫= (table !!.) with
    | Some fn => Some fn
    | None => internals reg !! key
    end.
Proof. apply internals_after_load. Qed.

(** [internalsdoc] gets the [":name"] keys only: the ["internal:name"]
    aliases are registered but never documented. *)
Theorem loadinternalmerge_internalsdoc_lookup (table : gmap string strategy)
    (reg : registries) (key : string) :
  internalsdoc (loadinternalmerge table reg) !! key =
    match documented key ≫= (table !!.) with
    | Some fn => Some fn
    | None => internalsdoc reg !! key
    end.
Proof. apply internalsdoc_after_load. Qed.

(** Loading a table a second time changes nothing. *)
Theorem loadinternalmerge_idempotent (table : gmap string strategy) (reg : registries) :
  loadinternalmerge table (loadinternalmerge table reg) = loadinternalmerge table reg.
Proof.
  assert (Hi : internals (loadinternalmerge table (loadinternalmerge table reg))
               = internals (loadinternalmerge table reg)).
  { apply map_eq. intros key. rewrite !internals_after_load.
    by destruct (aliased key ≫= (table !!.)). }
  assert (Hd : internalsdoc (loadinternalmerge table (loadinternalmerge table reg))
               = internalsdoc (loadinternalmerge table reg)).
  { apply map_eq. intros key. rewrite !internalsdoc_after_load.
    by destruct (documented key ≫= (table !!.)). }
  destruct (loadinternalmerge table (loadinternalmerge table reg)),
    (loadinternalmerge table reg). cbn in Hi, Hd. by subst.
Qed.

(** ** The tool picker *)

(** Under a change/delete conflict the capability check lets through
    none but the [nomerge] tools of the registry. *)
Lemma check_changedelete (H : host) (reg : registries) (tool : string) (pat : option string)
    (symlink binary : bool) (w w' : world) :
  check H reg tool pat symlink binary true w = (w', inr true) →
  supportscd reg (Some tool) = true.
Proof.
  unfold check.
  intros [(w1 & found & _ & Hk)|(e & _ & ?)]%bind_inv; [|done].
  destruct (negb (str_truthy found)).
  { by apply bind_inv in Hk as [(w2 & [] & _ & [= _ ?])|(e & _ & ?)]. }
  apply bind_inv in Hk as [(w2 & nosymlink & _ & Hk)|(e & _ & ?)]; [|done].
  destruct nosymlink.
  { by apply bind_inv in Hk as [(w3 & [] & _ & [= _ ?])|(e & _ & ?)]. }
  apply bind_inv in Hk as [(w3 & nobinary & _ & Hk)|(e & _ & ?)]; [|done].
  destruct nobinary.
  { by apply bind_inv in Hk as [(w4 & [] & _ & [= _ ?])|(e & _ & ?)]. }
  cbn [andb] in Hk. by destruct (supportscd reg (Some tool)).
Qed.

Lemma _findtool_internal (H : host) (reg : registries) (tool : string) (fn : strategy) :
  internals reg !! tool = Some fn → _findtool H reg tool = inr (Some tool).
Proof. unfold _findtool. by intros ->. Qed.

Lemma _picktool_patterns_inv (H : host) (reg : registries) (items : list (string * string))
    (path : string) (symlink changedelete : bool) (w w' : world) (tool : string)
    (q : option string) :
  _picktool_patterns H reg items path symlink changedelete w = (w', inr (Some (tool, q))) →
  ∃ pat w1 w2, (pat, tool) ∈ items ∧ matchpat H pat path = true ∧
               check H reg tool (Some pat) symlink false changedelete w1 = (w2, inr true).
Proof.
  revert w. induction items as [|[pat t] items IH]; intros w; [done|].
  cbn [_picktool_patterns].
  intros [(w1 & ok & Hcheck & Hk)|(e & _ & ?)]%bind_inv; [|done].
  destruct ok.
  - apply bind_inv in Hk as [(w2 & toolpath & _ & Hk)|(e & _ & ?)]; [|done].
    apply bind_inv in Hk as [(w3 & q' & _ & [= _ <- <-])|(e & _ & ?)]; [|done].
    destruct (matchpat H pat path) eqn:Hm; [|done].
    exists pat, w, w1. split; [apply elem_of_cons; by left|done].
  - destruct (IH _ Hk) as (pat' & wa & wb & Hin & Hm & Hc).
    exists pat', wa, wb. split; [apply elem_of_cons; by right|done].
Qed.

(** Under a change/delete conflict the picker settles on [":prompt"] or on
    a [nomerge] tool of the registry, whatever is forced or configured;
    it is supposed that no executable is found under the name of a
    registered tool. *)
Theorem picktool_changedelete (H : host) (reg : registries) (path : string)
    (binary symlink : bool) (w w' : world) (t : string) (q : option string) :
  (∀ tool p, findexternaltool H tool = inr (Some p) → internals reg !! p = None) →
  _picktool H reg path binary symlink true w = (w', inr (t, q)) →
  t = ":prompt" ∨ supportscd reg (Some t) = true.
Proof.
  intros Hexe. unfold _picktool.
  destruct (str_truthy (ui_config H "ui" "forcemerge" None)) eqn:Hforce.
  { intros [(w1 & toolpath & [-> Hft]%liftE_inv & Hk)|(e & _ & ?)]%bind_inv; [|done].
    symmetry in Hft.
    cbn [andb] in Hk. destruct (supportscd reg toolpath) eqn:Hcd; cbn [negb] in Hk.
    - right. assert (toolpath = Some t) as ->; [|done].
      destruct toolpath as [p|]; [|done]. unfold _findtool in Hft.
      destruct (internals reg !! strval (ui_config H "ui" "forcemerge" None)) eqn:Hint.
      + injection Hft as <-. cbn [str_truthy] in Hk.
        destruct (negb _); [|by injection Hk as _ <- _].
        by apply bind_inv in Hk as [(w2 & q' & _ & [= _ <- _])|(e & _ & ?)].
      + apply Hexe in Hft. unfold supportscd in Hcd. by rewrite Hft in Hcd.
    - left. by injection Hk as _ <- _. }
  destruct (str_truthy (environ H "HGMERGE")) eqn:Henv.
  { cbn [andb]. destruct (supportscd reg (environ H "HGMERGE")) eqn:Hcd; cbn [negb].
    - intros [= _ <- _]. right. by destruct (environ H "HGMERGE").
    - intros [= _ <- _]. by left. }
  intros [(w1 & bypattern & Hpat & Hk)|(e & _ & ?)]%bind_inv; [|done].
  destruct bypattern as [[t' q']|].
  { injection Hk as _ <- <-. right.
    apply _picktool_patterns_inv in Hpat as (pat & wa & wb & _ & _ & Hc).
    by apply check_changedelete in Hc. }
  apply bind_inv in Hk as [(w2 & [tools disabled] & _ & Hk)|(e & _ & ?)]; [|done].
  assert (Hfrom : ∀ cands, _picktool_from H reg cands path symlink binary true w2
                           = (w', inr (t, q)) →
                           t = ":prompt" ∨ supportscd reg (Some t) = true).
  { intros cands. unfold _picktool_from.
    intros [(w3 & found & Hfirst & Hk')|(e & _ & ?)]%bind_inv; [|done].
    apply _picktool_first_inv in Hfirst. destruct found as [[t' q']|].
    - injection Hk' as _ <- <-. right.
      destruct Hfirst as (_ & _ & _ & _ & _ & wa & wb & Hc).
      by apply check_changedelete in Hc.
    - left. rewrite !orb_true_r in Hk'.
      by apply bind_inv in Hk' as [(w4 & [] & _ & [= _ <- _])|(e & _ & ?)]. }
  rewrite andb_false_r in Hk.
  destruct (str_truthy (ui_config H "ui" "merge" None)); by apply Hfrom in Hk.
Qed.

Lemma picktool_changedelete_witness :
  ":local" = ":prompt" ∨ supportscd loaded (Some ":local") = true.
Proof.
  apply (picktool_changedelete (Scenario.uimergehost ":local") loaded "a.txt" false false
           (Scenario.ondisk "L" "B" "O")
           (_picktool (Scenario.uimergehost ":local") loaded "a.txt" false false true
                      (Scenario.ondisk "L" "B" "O")).1
           ":local" (Some ":local")).
  - intros tool p Hp. vm_compute in Hp. discriminate.
  - vm_compute. reflexivity.
Defined.

Lemma _picktool_patterns_skip (H : host) (reg : registries) (pre rest : list (string * string))
    (path : string) (symlink changedelete : bool) (w : world) :
  (∀ p t, (p, t) ∈ pre → matchpat H p path = false) →
  _picktool_patterns H reg (pre ++ rest) path symlink changedelete w
    = _picktool_patterns H reg rest path symlink changedelete w.
Proof.
  induction pre as [|[p t] pre IH]; intros Hno; [done|].
  cbn [app _picktool_patterns]. rewrite (Hno p t) by (apply elem_of_cons; by left).
  rewrite bind_ret_l. apply IH. intros p' t' Hin. apply (Hno p' t'), elem_of_cons. by right.
Qed.

Lemma check_found (H : host) (reg : registries) (tool : string) (pat : option string)
    (symlink binary changedelete : bool) (w w' : world) :
  check H reg tool pat symlink binary changedelete w = (w', inr true) →
  ∃ tp, _findtool H reg tool = inr (Some tp).
Proof.
  unfold check.
  intros [(w1 & found & [_ Hft]%liftE_inv & Hk)|(e & _ & ?)]%bind_inv; [|done].
  destruct found as [tp|]; [by exists tp|].
  by apply bind_inv in Hk as [(w2 & [] & _ & [= _ ?])|(e & _ & ?)].
Qed.

(** With nothing forced and no [HGMERGE], the first pattern of
    [merge-patterns] that matches the path decides, if the capability check
    accepts its tool: that tool is returned whatever [merge-tools] and
    [ui.merge] hold, and whether the file is binary or not (the check is
    made as for a file that is not). *)
Theorem picktool_pattern_first (H : host) (reg : registries) (path : string)
    (binary symlink changedelete : bool) (pre post : list (string * string))
    (pat tool : string) (w w1 : world) :
  str_truthy (ui_config H "ui" "forcemerge" None) = false →
  str_truthy (environ H "HGMERGE") = false →
  ui_configitems H "merge-patterns" = pre ++ (pat, tool) :: post →
  (∀ p t, (p, t) ∈ pre → matchpat H p path = false) →
  matchpat H pat path = true →
  check H reg tool (Some pat) symlink false changedelete w = (w1, inr true) →
  ∃ tp, _findtool H reg tool = inr (Some tp) ∧
        _picktool H reg path binary symlink changedelete w
          = (w1, inr (tool, Some (util_shellquote H tp))).
Proof.
  intros Hforce Henv Hitems Hpre Hmatch Hcheck.
  destruct (check_found _ _ _ _ _ _ _ _ _ Hcheck) as [tp Htp]. exists tp. split; [done|].
  assert (Hrun : _picktool_patterns H reg (ui_configitems H "merge-patterns") path symlink
                                     changedelete w
                 = (w1, inr (Some (tool, Some (util_shellquote H tp))))).
  { rewrite Hitems, (_picktool_patterns_skip _ _ _ _ _ _ _ _ Hpre).
    cbn [_picktool_patterns]. by rewrite Hmatch, (bind_ok _ _ _ _ _ Hcheck), Htp. }
  unfold _picktool. rewrite Hforce, Henv. by rewrite (bind_ok _ _ _ _ _ Hrun).
Qed.

Lemma picktool_pattern_first_witness :
  let w := Scenario.ondisk "L" "B" "O" in
  ∃ tp, _findtool Cases.patternhost loaded ":other" = inr (Some tp) ∧
        _picktool Cases.patternhost loaded "a.txt" true false false w
          = (w, inr (":other", Some (util_shellquote Cases.patternhost tp))).
Proof.
  intros w.
  apply (picktool_pattern_first Cases.patternhost loaded "a.txt" true false false
           [("*.c", "gcc-merge")] [] "*.txt" ":other" w w).
  - reflexivity.
  - reflexivity.
  - reflexivity.
  - intros p t [= -> ->]%list_elem_of_singleton. reflexivity.
  - reflexivity.
  - vm_compute. reflexivity.
Defined.

(** ** The order of the tools of [merge-tools] *)










(** ** The post-check *)

(** The post-check never makes a failure a success: the status it returns
    is the incoming one or 1, and it is non-zero when the incoming one is. *)
Theorem check_keeps_failure (H : host) (r : pyval) (tool : string) (fcd : filectx)
    (back : option filectx) (w w' : world) (r' : pyval) :
  _check H r tool fcd back w = (w', inr r') →
  (r' = r ∨ r' = PyInt 1) ∧ (truthy r = true → truthy r' = true).
Proof.
  unfold _check.
  intros [(w1 & r1 & Hscan & Hk)|(e & _ & ?)]%bind_inv; [|done].
  assert (H1 : r1 = r ∨ r1 = PyInt 1).
  { revert Hscan. destruct (negb (truthy r)); [|intros [= _ <-]; by left].
    intros [(w2 & scan & _ & Hk2)|(e & _ & ?)]%bind_inv; [|done].
    destruct scan; [|injection Hk2 as _ <-; by left].
    apply bind_inv in Hk2 as [(w3 & d & _ & Hk2)|(e & _ & ?)]; [|done].
    apply bind_inv in Hk2 as [(w4 & text & _ & Hk2)|(e & _ & ?)]; [|done].
    revert Hk2. destruct (re_search_multiline _ _); intros [= _ <-]; auto. }
  apply bind_inv in Hk as [(w2 & [r2 checked] & Hprompt & Hk)|(e & _ & ?)]; [|done].
  assert (H2 : r2 = r1 ∨ r2 = PyInt 1).
  { revert Hprompt. destruct (bool_decide _); [|intros [= _ <- _]; by left].
    intros [(w3 & answer & _ & Hk3)|(e & _ & ?)]%bind_inv; [|done].
    revert Hk3. destruct (negb (answer =? 0)); intros [= _ <- _]; auto. }
  apply bind_inv in Hk as [(w3 & r3 & Hchanged & Hk)|(e & _ & ?)]; [|done].
  assert (H3 : r3 = r2 ∨ r3 = PyInt 1).
  { revert Hchanged. destruct (negb (truthy r2) && negb checked); [|intros [= _ <-]; by left].
    intros [(w4 & changed & _ & Hk4)|(e & _ & ?)]%bind_inv; [|done].
    destruct changed; [|injection Hk4 as _ <-; by left].
    destruct back as [bk|]; [|injection Hk4 as _ <-; by left].
    apply bind_inv in Hk4 as [(w5 & differs & _ & Hk4)|(e & _ & ?)]; [|done].
    destruct (negb differs); [|injection Hk4 as _ <-; by left].
    apply bind_inv in Hk4 as [(w6 & answer & _ & Hk4)|(e & _ & ?)]; [|done].
    revert Hk4. destruct (negb (answer =? 0)); intros [= _ <-]; auto. }
  apply bind_inv in Hk as [(w4 & [] & _ & [= _ <-])|(e & _ & ?)]; [|done].
  split.
  - destruct H3 as [-> | ->]; [|by right]. destruct H2 as [-> | ->]; [|by right]. done.
  - intros Hr. destruct H3 as [-> | ->]; [|done]. destruct H2 as [-> | ->]; [|done].
    by destruct H1 as [-> | ->].
Qed.

Lemma check_keeps_failure_witness :
  let run := _check Scenario.prompthost (PyInt 2) "mytool" Scenario.fcd_disk None
                    (Scenario.ondisk Scenario.cleantext "B" "O") in
  run.2 = inr (PyInt 1) ∧
  (PyInt 1 = PyInt 2 ∨ PyInt 1 = PyInt 1) ∧ (truthy (PyInt 2) = true → truthy (PyInt 1) = true).
Proof.
  intros run. split; [vm_compute; reflexivity|].
  apply (check_keeps_failure Scenario.prompthost (PyInt 2) "mytool" Scenario.fcd_disk None
           (Scenario.ondisk Scenario.cleantext "B" "O") run.1 (PyInt 1)).
  vm_compute. reflexivity.
Defined.

(** The search of the conflict scan succeeds exactly on a text with a
    line that begins with seven [<] and a space, is seven [=], or begins
    with seven [>] and a space. *)
Theorem conflict_scan_lines (text : string) :
  re_search_multiline conflictmarkers text = true ↔
  ∃ line, line ∈ split (Ascii.ascii_of_nat 10) text ∧
          (String.prefix "<<<<<<< " line = true ∨ line = "=======" ∨
           String.prefix ">>>>>>> " line = true).
Proof.
  rewrite conflictmarkers_search, existsb_exists. unfold markerline.
  split; intros (line & Hin & Hm); exists line.
  - split; [by apply list_elem_of_In|].
    apply orb_true_iff in Hm as [[?|?%String.eqb_eq]%orb_true_iff|?]; auto.
  - split; [by apply list_elem_of_In|].
    destruct Hm as [->|[-> | ->]]; [done| |apply orb_true_r].
    by rewrite String.eqb_refl, orb_true_r.
Qed.

(** ** Line endings *)

Lemma prefix_CRLF_CR (s : string) : String.prefix CRLF s = true → String.prefix CR s = true.
Proof.
  destruct s as [|c s]; [done|]. unfold CRLF, CR, LF.
  change (String ?a "" +:+ ?t) with (String a t). cbn [String.prefix].
  destruct (Ascii.ascii_dec _ c); [|done]. intros _. by destruct s.
Qed.

Lemma contains_CRLF_CR (s : string) : contains CRLF s = true → contains CR s = true.
Proof.
  induction s as [|c s IH]; cbn [contains].
  - rewrite !orb_false_r. apply prefix_CRLF_CR.
  - intros [Hp|Hc]%orb_true_iff.
    + by rewrite (prefix_CRLF_CR _ Hp).
    + rewrite (IH Hc). apply orb_true_r.
Qed.

Lemma _eoltype_inv (d : string) :
  (∀ s, _eoltype d = Some s →
        (s = CRLF ∨ s = CR ∨ s = LF) ∧ contains s d = true ∧ contains NUL d = false) ∧
  (_eoltype d = None ↔
   contains NUL d = true ∨ (contains CR d = false ∧ contains LF d = false)).
Proof.
  unfold _eoltype. destruct (contains NUL d) eqn:Hnul.
  { split; [done|]. split; auto. }
  destruct (contains CRLF d) eqn:Hcrlf.
  { split; [intros s [= <-]; auto|]. split; [done|].
    intros [?|[Hcr _]]; [done|]. by rewrite (contains_CRLF_CR _ Hcrlf) in Hcr. }
  destruct (contains CR d) eqn:Hcr.
  { split; [intros s [= <-]; auto|]. split; [done|]. by intros [?|[? _]]. }
  destruct (contains LF d) eqn:Hlf.
  { split; [intros s [= <-]; auto|]. split; [done|]. by intros [?|[_ ?]]. }
  split; [done|]. split; auto.
Qed.

(** The style [_eoltype] guesses is one of the three line endings and
    occurs in the data, which then has no NUL byte; it guesses none
    exactly for data with a NUL byte or with neither CR nor LF. *)
Theorem eoltype_guess (d : string) :
  (∀ s, _eoltype d = Some s →
        (s = CRLF ∨ s = CR ∨ s = LF) ∧ contains s d = true ∧ contains NUL d = false) ∧
  (_eoltype d = None ↔
   contains NUL d = true ∨ (contains CR d = false ∧ contains LF d = false)).
Proof. apply _eoltype_inv. Qed.

Lemma eoltype_guess_witness :
  (LF = CRLF ∨ LF = CR ∨ LF = LF) ∧
  contains LF ("a" +:+ LF +:+ "b") = true ∧ contains NUL ("a" +:+ LF +:+ "b") = false.
Proof.
  apply (proj1 (eoltype_guess ("a" +:+ LF +:+ "b")) LF).
  vm_compute. reflexivity.
Defined.

Lemma strdrop_0 (s : string) : strdrop 0 s = s.
Proof. by destruct s. Qed.

Lemma strdrop_empty (k : nat) : strdrop k "" = "".
Proof. by destruct k. Qed.

(** Replacing a string by itself gives the text back. *)
Lemma replace_same (old s : string) : old ≠ "" → replace s old old = s.
Proof.
  intros Hold. unfold replace.
  enough (Hgen : ∀ k, replace_go old old k s = strdrop k s)
    by (rewrite Hgen; apply strdrop_0).
  induction s as [|c s IH]; intros k.
  - by rewrite strdrop_empty.
  - cbn [replace_go]. destruct k as [|k]; [|by rewrite IH].
    destruct (String.prefix old (String c s)) eqn:Hp.
    + rewrite IH. cbn [strdrop]. pose proof (prefix_strdrop _ _ Hp) as Hs.
      destruct old as [|a old]; [done|]. cbn [String.prefix] in Hp.
      destruct (Ascii.ascii_dec a c) as [->|]; [|done].
      cbn [String.length strdrop] in Hs |- *.
      replace (S (String.length old) - 1)%nat with (String.length old) by lia. done.
    + by rewrite IH, strdrop_0.
Qed.

(** [_matcheol] leaves everything as it is when the backup has no line
    ending to go by, when the file has none to convert, and when the file
    already has the style of the backup. *)
Theorem matcheol_nothing_to_do (H : host) (file : string) (back : filectx) (w : world)
    (bd fd : filedata) :
  stored H back w = Some bd →
  disk w !! file = Some fd →
  _eoltype (fdata bd) = None ∨ _eoltype (fdata fd) = None ∨
    _eoltype (fdata fd) = _eoltype (fdata bd) →
  _matcheol H file back w = (w, inr tt).
Proof.
  intros Hbd Hfd Hstyle. unfold _matcheol.
  rewrite (bind_ok _ _ _ _ _ (data_present H _ _ _ Hbd)). cbn [needstr]. rewrite bind_ret_l.
  destruct (_eoltype (fdata bd)) as [tostyle|] eqn:Hto; [|done].
  assert (Hread : util_readfile file w = (w, inr (fdata fd))).
  { unfold util_readfile. by rewrite Hfd. }
  rewrite (bind_ok _ _ _ _ _ Hread).
  destruct (_eoltype (fdata fd)) as [style|] eqn:Hst; [|done].
  destruct Hstyle as [?|[?|[= ->]]]; [done|done|].
  rewrite replace_same, String.eqb_refl; [done|].
  destruct (proj1 (_eoltype_inv (fdata bd)) _ Hto) as [[->|[-> | ->]] _]; done.
Qed.

Lemma matcheol_nothing_to_do_witness :
  let w := Scenario.backedup Scenario.cleantext "B" "O" in
  _matcheol Scenario.plainhost "/repo/a.txt" Scenario.back_disk w = (w, inr tt).
Proof.
  intros w.
  apply (matcheol_nothing_to_do Scenario.plainhost "/repo/a.txt" Scenario.back_disk w
           (Scenario.file Scenario.cleantext "") (Scenario.file Scenario.cleantext "")).
  - vm_compute. reflexivity.
  - vm_compute. reflexivity.
  - right. right. reflexivity.
Defined.

(** ** Backups *)

(** Outside the premerge [_makebackup] writes nothing: it only names the
    backup. *)
Theorem makebackup_written_in_premerge_only (H : host) (wctx : changectx) (fcd : filectx)
    (w w' : world) (res : exn + option filectx) :
  _makebackup H wctx fcd false w = (w', res) → w' = w ∧ ∃ b, res = inr b.
Proof.
  unfold _makebackup. destruct (isabsent fcd); [intros [= <- <-]; eauto|].
  destruct (_ && _); rewrite bind_ret_l; intros [= <- <-]; eauto.
Qed.

Lemma makebackup_written_in_premerge_only_witness :
  let w := Scenario.ondisk "L" "B" "O" in
  let run := _makebackup Scenario.plainhost workingctx Scenario.fcd_disk false w in
  run.1 = w ∧ ∃ b, run.2 = inr b.
Proof.
  intros w run.
  apply (makebackup_written_in_premerge_only Scenario.plainhost workingctx Scenario.fcd_disk
           w run.1 run.2).
  apply surjective_pairing.
Defined.

(** In the premerge, for a destination of the working directory, the
    backup is a copy of it, bytes and flags, at the path [origpath] gives;
    no other file of the disk and nothing in memory changes. *)
Theorem makebackup_copies_destination (H : host) (wctx : changectx) (p : string)
    (w : world) (d : filedata) :
  stored H (fctx workingctx p) w = Some d →
  let back := scmutil_origpath H (repo_wjoin H p) in
  ∃ w', _makebackup H wctx (fctx workingctx p) true w
          = (w', inr (Some (arbitraryfilectx back))) ∧
        stored H (arbitraryfilectx back) w' = Some d ∧
        mem w' = mem w ∧
        (∀ q, q ≠ back → disk w' !! q = disk w !! q).
Proof.
  intros Hd back. cbn [stored] in Hd. unfold _makebackup. cbn [isabsent andb].
  unfold _workingpath. cbn [path]. fold back.
  assert (Hcopy : util_copyfile (repo_wjoin H p) back w =
                  (add_log (ev_write (arbitraryfilectx back))
                           (set_disk (<[back := d]> (disk w)) w), inr tt)).
  { unfold util_copyfile. by rewrite Hd. }
  eexists. split.
  - rewrite (bind_ok _ _ _ _ _ Hcopy). reflexivity.
  - cbn [stored add_log set_disk disk mem]. split; [apply lookup_insert_eq|].
    split; [done|]. intros q Hq. by apply lookup_insert_ne.
Qed.

Lemma makebackup_copies_destination_witness :
  let w := Scenario.ondisk "L" "B" "O" in
  ∃ w', _makebackup Scenario.plainhost workingctx Scenario.fcd_disk true w
          = (w', inr (Some Scenario.back_disk)) ∧
        stored Scenario.plainhost Scenario.back_disk w' = Some (Scenario.file "L" "") ∧
        mem w' = mem w ∧
        (∀ q, q ≠ "/repo/a.txt.orig" → disk w' !! q = disk w !! q).
Proof.
  intros w.
  apply (makebackup_copies_destination Scenario.plainhost workingctx "a.txt" w
           (Scenario.file "L" "")).
  vm_compute. reflexivity.
Defined.

(** For a destination of the in-memory context whose backup path lies in
    the working directory (and outside the store), the backup is written
    into the working context at the path relative to the working directory:
    the disk is left alone. *)
Theorem makebackup_inmemory_spares_disk (H : host) (p : string) (w : world) (d : filedata) :
  let back := scmutil_origpath H (repo_wjoin H p) in
  let relpath := strdrop (String.length (repo_wvfs_base H) + 1) back in
  startswith back (repo_wvfs_base H) = true →
  startswith back (repo_vfs_base H) = false →
  stored H (fctx overlayworkingctx p) w = Some d →
  ∃ w', _makebackup H overlayworkingctx (fctx overlayworkingctx p) true w
          = (w', inr (Some (fctx overlayworkingctx relpath))) ∧
        stored H (fctx overlayworkingctx relpath) w'
          = Some {| fdata := fdata d; fflags := fflags d |} ∧
        disk w' = disk w.
Proof.
  intros back relpath Hin Hout Hd. unfold _makebackup. cbn [isabsent].
  unfold _workingpath. cbn [path]. fold back. rewrite Hin, Hout. cbn [negb andb].
  fold relpath.
  destruct (write_stored H (fctx overlayworkingctx relpath) (fdata d) (fflags d) w eq_refl)
    as (w' & Hwr & Hst & _).
  assert (Hinner : (let* d := data H (fctx overlayworkingctx p) in
                    let* fl := flags H (fctx overlayworkingctx p) in
                    write H (fctx overlayworkingctx relpath) d fl) w = (w', inr tt)).
  { rewrite (bind_ok _ _ _ _ _ (data_present H _ _ _ Hd)).
    by rewrite (bind_ok _ _ _ _ _ (flags_present H _ _ _ Hd)). }
  exists w'. rewrite (bind_ok _ _ _ _ _ Hinner). split; [done|]. split; [done|].
  cbn [write] in Hwr. by injection Hwr as <-.
Qed.

Lemma makebackup_inmemory_spares_disk_witness :
  let w := Scenario.inmemory "L" "B" "O" in
  ∃ w', _makebackup Scenario.plainhost overlayworkingctx Scenario.fcd_mem true w
          = (w', inr (Some (fctx overlayworkingctx "a.txt.orig"))) ∧
        stored Scenario.plainhost (fctx overlayworkingctx "a.txt.orig") w'
          = Some (Scenario.file "L" "") ∧
        disk w' = disk w.
Proof.
  intros w.
  apply (makebackup_inmemory_spares_disk Scenario.plainhost "a.txt" w (Scenario.file "L" "")).
  - reflexivity.
  - reflexivity.
  - vm_compute. reflexivity.
Defined.

(** ** The premerge driver, outside the restore *)

Lemma _premerge_setting_inv (H : host) (tool : string) (binary : bool) :
  (∀ p, _premerge_setting H tool binary = inr p →
        (∃ b, p = PyBool b) ∨ p = PyStr "keep" ∨ p = PyStr "keep-merge3") ∧
  (∀ msg v, _toolbool H tool "premerge" (Some (negb binary)) = inl (ConfigError msg) →
            _toolstr H tool "premerge" (Some "") = Some v →
            (lower v ∈ validkeep → _premerge_setting H tool binary = inr (PyStr (lower v))) ∧
            (lower v ∉ validkeep →
             ∃ msg', _premerge_setting H tool binary = inl (ConfigError msg'))).
Proof.
  unfold _premerge_setting. split.
  - intros p. destruct (_toolbool H tool "premerge" _) as [[]|b]; try done.
    + destruct (_toolstr H tool "premerge" _) as [v|]; [|done].
      unfold notin_validkeep. destruct (bool_decide (lower v ∈ validkeep)) eqn:Hv; [|done].
      cbn [negb]. intros [= <-]. apply bool_decide_eq_true in Hv.
      apply elem_of_cons in Hv as [->|Hv]; [auto|].
      apply list_elem_of_singleton in Hv as ->. auto.
    + intros [= <-]. eauto.
  - intros msg v -> ->. unfold notin_validkeep. split; intros Hv.
    + by rewrite (bool_decide_eq_true_2 _ Hv).
    + rewrite (bool_decide_eq_false_2 _ Hv). cbn [negb]. eauto.
Qed.

(** The premerge policy of a tool is a boolean or one of [keep] and
    [keep-merge3], which may be written in any case; another value that is
    not a boolean is a configuration error. *)
Theorem premerge_setting_policy (H : host) (tool : string) (binary : bool) :
  (∀ p, _premerge_setting H tool binary = inr p →
        (∃ b, p = PyBool b) ∨ p = PyStr "keep" ∨ p = PyStr "keep-merge3") ∧
  (∀ msg v, _toolbool H tool "premerge" (Some (negb binary)) = inl (ConfigError msg) →
            _toolstr H tool "premerge" (Some "") = Some v →
            (lower v ∈ validkeep → _premerge_setting H tool binary = inr (PyStr (lower v))) ∧
            (lower v ∉ validkeep →
             ∃ msg', _premerge_setting H tool binary = inl (ConfigError msg'))).
Proof. apply _premerge_setting_inv. Qed.

Lemma premerge_setting_policy_witness :
  _premerge_setting Cases.keephost ":merge" false = inr (PyStr "keep") ∧
  ∃ msg', _premerge_setting Cases.badpremergehost ":merge" false = inl (ConfigError msg').
Proof.
  split.
  - apply (proj1 (proj2 (premerge_setting_policy Cases.keephost ":merge" false)
                        "not a boolean" "Keep" eq_refl eq_refl)).
    apply elem_of_cons. by left.
  - apply (proj2 (proj2 (premerge_setting_policy Cases.badpremergehost ":merge" false)
                        "not a boolean" "sometimes" eq_refl eq_refl)).
    intros Hin. apply elem_of_cons in Hin as [Hin|Hin]; [discriminate|].
    apply list_elem_of_singleton in Hin. discriminate.
Defined.

(** Where the premerge driver does not restore.  With a policy that is
    off it returns 1 and nothing happens; a policy that cannot be read is
    raised before anything happens; and under [keep] or [keep-merge3] a
    merge with conflicts returns 1 with the world as simplemerge left it,
    markers included. *)
Theorem premerge_without_restore (H : host) (fcd fco fca : filectx) (toolconf : toolconf_t)
    (back : option filectx) (labels : option (list string)) (w : world) :
  tc_symlink toolconf || isabsent fcd || isabsent fco = false →
  (∀ p, _premerge_setting H (tc_tool toolconf) (tc_binary toolconf) = inr p →
        truthy p = false →
        _premerge H fcd fco fca toolconf back labels w = (w, inr (PyInt 1))) ∧
  (∀ e, _premerge_setting H (tc_tool toolconf) (tc_binary toolconf) = inl e →
        _premerge H fcd fco fca toolconf back labels w = (w, inl e)) ∧
  (∀ p w1 r, _premerge_setting H (tc_tool toolconf) (tc_binary toolconf) = inr p →
             truthy p = true → notin_validkeep p = false →
             simplemerge H fcd fca fco (_premerge_opts p labels) w = (w1, inr r) →
             truthy r = true →
             _premerge H fcd fco fca toolconf back labels w = (w1, inr (PyInt 1))).
Proof.
  intros Hgo. unfold _premerge. rewrite Hgo. split; [|split].
  - intros p -> Hp. cbn [liftE]. by rewrite bind_ret_l, Hp.
  - by intros e ->.
  - intros p w1 r -> Hp Hkeep Hsm Hr. cbn [liftE].
    rewrite bind_ret_l, Hp, (bind_ok _ _ _ _ _ Hsm), Hr, Hkeep. reflexivity.
Qed.

Lemma premerge_without_restore_witness :
  let w := Scenario.backedup "L" "B" "O" in
  let run := _premerge Cases.keephost Scenario.fcd_disk Scenario.fco Scenario.fca
                       Scenario.toolconf_merge (Some Scenario.back_disk) None w in
  run = ((simplemerge Cases.keephost Scenario.fcd_disk Scenario.fca Scenario.fco
            (_premerge_opts (PyStr "keep") None) w).1, inr (PyInt 1)) ∧
  stored Cases.keephost Scenario.fcd_disk run.1
    = Some (Scenario.file (Scenario.conflicttext "L" "O") "").
Proof.
  intros w run. split.
  - apply (proj2 (proj2 (premerge_without_restore Cases.keephost Scenario.fcd_disk
                           Scenario.fco Scenario.fca Scenario.toolconf_merge
                           (Some Scenario.back_disk) None w eq_refl))
                 (PyStr "keep") _ (PyInt 1)).
    + reflexivity.
    + reflexivity.
    + reflexivity.
    + vm_compute. reflexivity.
    + reflexivity.
  - vm_compute. reflexivity.
Defined.

(** ** The strategies without merge *)

(** [_ifail] marks the file unresolved: status 1, not deleted.  A local
    side that is there is left alone; for a local side that is absent the
    version of the other side is written out first. *)
Theorem ifail_materializes_other (H : host) (fcd fco fca : filectx) (w : world) :
  (isabsent fcd = false → _ifail H fcd fco fca w = (w, inr (PyTuple [PyInt 1; PyBool false]))) ∧
  (∀ d, isabsent fcd = true → writable (_underlyingfctxifabsent fcd) = true →
        stored H fco w = Some d →
        ∃ w', _ifail H fcd fco fca w = (w', inr (PyTuple [PyInt 1; PyBool false])) ∧
              stored H (_underlyingfctxifabsent fcd) w'
                = Some {| fdata := fdata d; fflags := fflags d |}).
Proof.
  unfold _ifail. split.
  - by intros ->.
  - intros d -> Hw Hd.
    destruct (write_stored H _ (fdata d) (fflags d) w Hw) as (w' & Hwr & Hst & _).
    assert (Hinner : (let* v := data H fco in let* fl := flags H fco in
                      write H (_underlyingfctxifabsent fcd) v fl) w = (w', inr tt)).
    { rewrite (bind_ok _ _ _ _ _ (data_present H _ _ _ Hd)).
      by rewrite (bind_ok _ _ _ _ _ (flags_present H _ _ _ Hd)). }
    exists w'. by rewrite (bind_ok _ _ _ _ _ Hinner).
Qed.

Lemma ifail_materializes_other_witness :
  let w := Scenario.ondisk "L" "B" "O" in
  _ifail Scenario.plainhost Scenario.fcd_disk Scenario.fco Scenario.fca w
    = (w, inr (PyTuple [PyInt 1; PyBool false])) ∧
  ∃ w', _ifail Scenario.plainhost Cases.absent_local Scenario.fco Scenario.fca w
          = (w', inr (PyTuple [PyInt 1; PyBool false])) ∧
        stored Scenario.plainhost Scenario.fcd_disk w' = Some (Scenario.file "O" "").
Proof.
  intros w. split.
  - apply (proj1 (ifail_materializes_other Scenario.plainhost Scenario.fcd_disk Scenario.fco
                    Scenario.fca w)).
    reflexivity.
  - apply (proj2 (ifail_materializes_other Scenario.plainhost Cases.absent_local Scenario.fco
                    Scenario.fca w) (Scenario.file "O" "")).
    + reflexivity.
    + reflexivity.
    + vm_compute. reflexivity.
Defined.

(** What a write leaves of any other file: the file as it was, unless it
    is the one written. *)
Lemma stored_after_write (H : host) (f g : filectx) (s fl : string) (w w' : world) :
  write H f (PyStr s) fl w = (w', inr tt) →
  stored H g w' = Some {| fdata := s; fflags := fl |} ∨ stored H g w' = stored H g w.
Proof.
  destruct f as [[n| |] p|p|c p]; try discriminate; cbn [write]; intros [= <-];
    destruct g as [[m| |] q|q|c' q]; cbn [stored add_log set_disk set_mem disk mem revs];
    try (by right);
    match goal with
    | |- context [<[?k := _]> _ !! ?k'] =>
        destruct (decide (k = k')) as [->|Hne];
        [left; apply lookup_insert_eq|right; by apply lookup_insert_ne]
    end.
Qed.

Lemma same_files_after_write (H : host) (f : filectx) (s fl : string) (w w' : world) :
  stored H f w = Some {| fdata := s; fflags := fl |} →
  write H f (PyStr s) fl w = (w', inr tt) →
  disk w' = disk w ∧ mem w' = mem w.
Proof.
  destruct f as [[n| |] p|p|c p]; try discriminate; cbn [write stored];
    intros Hs [= <-]; cbn [add_log set_disk set_mem disk mem]; split; try done;
    by apply insert_id.
Qed.

(** Applying [_iother] a second time changes no file and gives the same
    result. *)
Theorem iother_twice (H : host) (fcd fco fca : filectx) (w w1 w2 : world)
    (r2 : exn + pyval) (v : pyval) :
  _iother H fcd fco fca w = (w1, inr v) →
  _iother H fcd fco fca w1 = (w2, r2) →
  r2 = inr v ∧ disk w2 = disk w1 ∧ mem w2 = mem w1.
Proof.
  unfold _iother. destruct (isabsent fco) eqn:Habs.
  - intros [(wa & [] & Hrm & [= <- <-])|(e & _ & ?)]%bind_inv; [|done].
    intros Hsecond. revert Hrm Hsecond.
    destruct (_underlyingfctxifabsent fcd) as [[n| |] p|p|c p]; try discriminate;
      cbn [remove]; intros [= <-]; rewrite bind_ok with (s' := _) (a := tt) by reflexivity;
      intros [= <- <-]; cbn [add_log set_disk set_mem disk mem];
      (split; [done|]); split; try done; by rewrite delete_delete_eq.
  - intros [(wa & d & [-> Hd]%data_inv & Hk)|(e & _ & ?)]%bind_inv; [|done].
    apply bind_inv in Hk as [(wb & fl & Hfl & Hk)|(e & _ & ?)]; [|done].
    pose proof (proj1 (flags_inv H _ _ _ _ Hfl)) as ->.
    apply bind_inv in Hk as [(wc & [] & Hwr & [= -> <-])|(e & _ & ?)]; [|done].
    pose proof (write_inv H _ _ _ _ _ Hwr) as (s & -> & Hw & Hst).
    destruct (Hd s eq_refl) as (fd & Hfd & <-).
    rewrite (flags_present H _ _ _ Hfd) in Hfl. injection Hfl as <-.
    assert (Hfco : stored H fco w1 = Some {| fdata := fdata fd; fflags := fflags fd |}).
    { destruct (stored_after_write H _ fco _ _ _ _ Hwr) as [->| ->]; [done|].
      rewrite Hfd. by destruct fd. }
    rewrite (bind_ok _ _ _ _ _ (data_present H _ _ _ Hfco)).
    rewrite (bind_ok _ _ _ _ _ (flags_present H _ _ _ Hfco)). cbn [fdata fflags].
    intros [(wd & [] & Hwr2 & [= <- <-])|(e & Hwr2 & ->)]%bind_inv.
    + split; [done|]. by apply (same_files_after_write H _ _ _ _ _ Hst Hwr2).
    + destruct (write_stored H _ (fdata fd) (fflags fd) w1 Hw) as (wd & Hwr3 & _).
      congruence.
Qed.

Lemma iother_twice_witness :
  let w := Scenario.ondisk "L" "B" "O" in
  let first := _iother Scenario.plainhost Scenario.fcd_disk Scenario.fco Scenario.fca w in
  let second := _iother Scenario.plainhost Scenario.fcd_disk Scenario.fco Scenario.fca
                        first.1 in
  second.2 = inr (PyTuple [PyInt 0; PyBool false]) ∧
  disk second.1 = disk first.1 ∧ mem second.1 = mem first.1.
Proof.
  intros w first second.
  apply (iother_twice Scenario.plainhost Scenario.fcd_disk Scenario.fco Scenario.fca
           w first.1 second.1 second.2).
  - vm_compute. reflexivity.
  - apply surjective_pairing.
Defined.

(** ** The prompt *)

Lemma write_not_response (H : host) (f : filectx) (v : pyval) (fl : string) (w w' : world)
    (e : exn) :
  write H f v fl w = (w', inl e) → e ≠ ResponseExpected.
Proof.
  destruct v; try (by intros [= _ <-]).
  destruct f as [[n| |] p|p|c p]; cbn [write]; unfold modify, raise; intros ?; by simplify_eq.
Qed.

Lemma remove_not_response (H : host) (f : filectx) (w w' : world) (e : exn) :
  remove H f w = (w', inl e) → e ≠ ResponseExpected.
Proof.
  destruct f as [[n| |] p|p|c p]; cbn [remove]; unfold modify, raise; intros ?; by simplify_eq.
Qed.

Lemma present_read_not_response (H : host) (f : filectx) (w w' : world) (e : exn) :
  present_read H f w = (w', inl e) → e ≠ ResponseExpected.
Proof. unfold present_read. destruct (stored H f w); intros ?; by simplify_eq. Qed.

Lemma data_not_response (H : host) (f : filectx) (w w' : world) (e : exn) :
  data H f w = (w', inl e) → e ≠ ResponseExpected.
Proof.
  destruct f; cbn [data]; try done;
    by intros [(w1 & d & _ & ?)|(e' & ?%present_read_not_response & [= ->])]%bind_inv.
Qed.

Lemma flags_not_response (H : host) (f : filectx) (w w' : world) (e : exn) :
  flags H f w = (w', inl e) → e ≠ ResponseExpected.
Proof.
  destruct f; cbn [flags]; try done;
    by intros [(w1 & d & _ & ?)|(e' & ?%present_read_not_response & [= ->])]%bind_inv.
Qed.

Lemma _iother_not_response (H : host) (fcd fco fca : filectx) (w w' : world) (e : exn) :
  _iother H fcd fco fca w = (w', inl e) → e ≠ ResponseExpected.
Proof.
  unfold _iother. destruct (isabsent fco).
  - by intros [(w1 & [] & _ & ?)|(e' & ?%remove_not_response & [= ->])]%bind_inv.
  - intros [(w1 & d & _ & Hk)|(e' & ?%data_not_response & [= ->])]%bind_inv; [|done].
    apply bind_inv in Hk as [(w2 & fl & _ & Hk)|(e1 & ?%flags_not_response & [= ->])]; [|done].
    by apply bind_inv in Hk as [(w3 & [] & _ & ?)|(e2 & ?%write_not_response & [= ->])].
Qed.

Lemma _ifail_not_response (H : host) (fcd fco fca : filectx) (w w' : world) (e : exn) :
  _ifail H fcd fco fca w = (w', inl e) → e ≠ ResponseExpected.
Proof.
  unfold _ifail.
  intros [(w1 & [] & _ & ?)|(e' & Hk & [= ->])]%bind_inv; [done|].
  destruct (isabsent fcd); [|done].
  apply bind_inv in Hk as [(w2 & d & _ & Hk)|(e1 & ?%data_not_response & [= ->])]; [|done].
  apply bind_inv in Hk as [(w3 & fl & _ & Hk)|(e2 & ?%flags_not_response & [= ->])]; [|done].
  by apply write_not_response in Hk.
Qed.

Lemma try_except_through {S A} (body : M S A) (handler : exn → M S A) (s : S) :
  (∀ s' e, body s = (s', inl e) → handler e = raise e) →
  try_except body handler s = body s.
Proof.
  intros Hh. unfold try_except. destruct (body s) as [s' [e|a]] eqn:Eb; [|done].
  by rewrite (Hh s' e eq_refl).
Qed.

(** The prompt on disk, once the user has answered.  In both change/delete
    cases the first choice keeps the changed side and the second takes the
    deletion, which is why the first choice runs [_ilocal] when the other
    side is absent and [_iother] when the local side is; the third choice,
    like a missing answer, leaves the file unresolved through [_ifail]. *)
Theorem iprompt_dispatch (H : host) (fcd fco fca : filectx) (labels : option (list string))
    (l o : string) (w : world) (answer : option Z) (rs : list (option Z)) :
  isinmemory (changectx_of fcd) = false →
  partextras labels = inr (l, o) →
  responses w = answer :: rs →
  let fd := path fcd in
  let msg := if isabsent fco then _localchangedotherdeletedmsg l o fd
             else if isabsent fcd then _otherchangedlocaldeletedmsg l o fd
             else _keepmsg l o fd in
  let asked := set_responses rs (add_log (ui_promptchoice msg 2) w) in
  let otherfirst := negb (isabsent fco) && isabsent fcd in
  (answer = Some 0 →
   _iprompt H fcd fco fca labels w
     = if otherfirst then _iother H fcd fco fca asked else _ilocal fcd fco fca asked) ∧
  (answer = Some 1 →
   _iprompt H fcd fco fca labels w
     = if otherfirst then _ilocal fcd fco fca asked else _iother H fcd fco fca asked) ∧
  (answer = Some 2 → _iprompt H fcd fco fca labels w = _ifail H fcd fco fca asked) ∧
  (answer = None →
   _iprompt H fcd fco fca labels w = _ifail H fcd fco fca (add_log (ui_write LF) asked)).
Proof.
  intros Hmem Hlabels Hresp fd msg asked otherfirst.
  unfold _iprompt. rewrite Hmem, Hlabels. cbn [liftE]. rewrite bind_ret_l. fold fd.
  assert (Hask : ∀ i, answer = Some i →
            promptchoice msg 2 w = (asked, inr i)).
  { intros i ->. unfold promptchoice. by rewrite Hresp. }
  assert (Hnone : answer = None → promptchoice msg 2 w = (asked, inl ResponseExpected)).
  { intros ->. unfold promptchoice. by rewrite Hresp. }
  assert (Hprompt : ∀ (choices : list string) i choice,
            answer = Some i → pyindex choices i = inr choice →
            (let* index := promptchoice msg 2 in liftE (pyindex choices index)) w
              = (asked, inr choice)).
  { intros choices i choice Ha Hc. rewrite (bind_ok _ _ _ _ _ (Hask i Ha)). by rewrite Hc. }
  assert (Hpnone : ∀ choices : list string,
            answer = None →
            (let* index := promptchoice msg 2 in liftE (pyindex choices index)) w
              = (asked, inl ResponseExpected)).
  { intros choices Ha. by rewrite (bind_err _ _ _ _ _ (Hnone Ha)). }
  assert (Hhandler : ∀ (m : M world pyval) s' e,
            m asked = (s', inl e) → e ≠ ResponseExpected →
            (match e with
             | ResponseExpected => emit (ui_write LF);; _ifail H fcd fco fca
             | _ => raise e
             end) = raise e).
  { intros m s' e _ He. by destruct e. }
  unfold msg, otherfirst in *.
  destruct (isabsent fco) eqn:Hfco, (isabsent fcd) eqn:Hfcd; cbn [negb andb];
    (split; [|split; [|split]]); intros Ha;
    try (rewrite try_except_through;
         [ erewrite bind_ok by (eapply Hprompt; [exact Ha|reflexivity]); reflexivity
         | intros s' e; erewrite bind_ok by (eapply Hprompt; [exact Ha|reflexivity]);
           cbn [String.eqb Ascii.eqb Bool.eqb]; intros Hrun;
           eapply Hhandler; [exact Hrun|];
           first [ by apply _iother_not_response in Hrun
                 | by apply _ifail_not_response in Hrun
                 | done ] ]);
    (unfold try_except; rewrite (bind_err _ _ _ _ _ (Hpnone _ Ha)); reflexivity).
Qed.

Lemma iprompt_dispatch_witness :
  let w := Scenario.answering_no (Scenario.ondisk "L" "B" "O") in
  let asked := set_responses []
                 (add_log (ui_promptchoice (_localchangedotherdeletedmsg "" "" "a.txt") 2) w) in
  _iprompt Scenario.plainhost Scenario.fcd_disk Cases.absent_other Scenario.fca None w
    = _iother Scenario.plainhost Scenario.fcd_disk Cases.absent_other Scenario.fca asked.
Proof.
  intros w asked.
  apply (proj1 (proj2 (iprompt_dispatch Scenario.plainhost Scenario.fcd_disk Cases.absent_other
                         Scenario.fca None "" "" w (Some 1) [] eq_refl eq_refl eq_refl))).
  reflexivity.
Defined.

(** ** The external driver and its temporary files *)

(** Once the two temporary files are made, [_xmerge] unlinks them before
    it ends, whether the command ran, and whatever it returned, or an error
    came first; when [_xmerge] then returns, it returns [(True, r, False)]
    with an exit code [r]. *)
Theorem xmerge_unlinks_tempfiles (H : host) (mynode : string) (fcd fco fca : filectx)
    (toolconf : toolconf_t) (back : option filectx) (labels : option (list string))
    (w w1 w' : world) (b c : string) (res : exn + pyval) :
  isabsent fcd || isabsent fco = false →
  _maketempfiles H fco fca w = (w1, inr (b, c)) →
  _xmerge H mynode fcd fco fca toolconf back labels w = (w', res) →
  (∃ evs, log w' = log w1 ++ evs ++ [ev_unlink b; ev_unlink c]) ∧
  disk w' !! b = None ∧ disk w' !! c = None ∧
  (∀ v, res = inr v → ∃ r, v = PyTuple [PyBool true; PyInt r; PyBool false]).
Proof.
  intros Hgo Htemp. unfold _xmerge. rewrite Hgo, (bind_ok _ _ _ _ _ Htemp).
  match goal with |- try_finally ?m _ _ = _ → _ => set (body := m) end.
  assert (Hrn : removes_nothing log body) by (unfold body; rn).
  assert (Hret : ∀ w2 v, body w1 = (w2, inr v) →
                         ∃ r, v = PyTuple [PyBool true; PyInt r; PyBool false]).
  { intros w2 v. unfold body.
    intros [(s1 & fld & _ & Hk)|(e & _ & ?)]%bind_inv; [|done].
    apply bind_inv in Hk as [(s2 & flo & _ & Hk)|(e & _ & ?)]; [|done].
    apply bind_inv in Hk as [(s3 & fla & _ & Hk)|(e & _ & ?)]; [|done].
    apply bind_inv in Hk as [(s4 & args & _ & Hk)|(e & _ & ?)]; [|done].
    apply bind_inv in Hk as [(s5 & [out a] & _ & Hk)|(e & _ & ?)]; [|done].
    apply bind_inv in Hk as [(s6 & cmd & _ & Hk)|(e & _ & ?)]; [|done].
    apply bind_inv in Hk as [(s7 & gui & _ & Hk)|(e & _ & ?)]; [|done].
    apply bind_inv in Hk as [(s8 & [] & _ & Hk)|(e & _ & ?)]; [|done].
    apply bind_inv in Hk as [(s9 & [] & _ & Hk)|(e & _ & ?)]; [|done].
    apply bind_inv in Hk as [(s10 & r & _ & Hk)|(e & _ & ?)]; [|done].
    apply bind_inv in Hk as [(s11 & [] & _ & [= _ <-])|(e & _ & ?)]; [|done].
    by exists r. }
  unfold try_finally. destruct (body w1) as [w2 res2] eqn:Ebody.
  destruct (Hrn _ _ _ Ebody) as (evs & Elog & _).
  cbn [util_unlink bind modify]. intros [= <- <-].
  cbn [add_log set_disk disk log]. split; [|split; [|split]].
  - exists evs. rewrite Elog. by rewrite <- !app_assoc.
  - destruct (decide (c = b)) as [->|Hne]; [apply lookup_delete_eq|].
    rewrite lookup_delete_ne by done. apply lookup_delete_eq.
  - apply lookup_delete_eq.
  - intros v ->. by apply (Hret w2).
Qed.

Lemma xmerge_unlinks_tempfiles_witness :
  let toolconf := {| tc_tool := "kdiff3"; tc_toolpath := Some "/usr/bin/kdiff3";
                     tc_binary := false; tc_symlink := false |} in
  let w := Scenario.backedup "L" "B" "O" in
  let w1 := (_maketempfiles Scenario.plainhost Scenario.fco Scenario.fca w).1 in
  let run := _xmerge Scenario.plainhost "node" Scenario.fcd_disk Scenario.fco Scenario.fca
                     toolconf (Some Scenario.back_disk) None w in
  (∃ evs, log run.1 = log w1 ++ evs ++ [ev_unlink "/tmp/a.txt~base."; ev_unlink "/tmp/a.txt~other."]) ∧
  disk run.1 !! "/tmp/a.txt~base." = None ∧ disk run.1 !! "/tmp/a.txt~other." = None ∧
  (∀ v, run.2 = inr v → ∃ r, v = PyTuple [PyBool true; PyInt r; PyBool false]).
Proof.
  intros toolconf w w1 run.
  apply (xmerge_unlinks_tempfiles Scenario.plainhost "node" Scenario.fcd_disk Scenario.fco
           Scenario.fca toolconf (Some Scenario.back_disk) None w w1 run.1
           "/tmp/a.txt~base." "/tmp/a.txt~other." run.2).
  - reflexivity.
  - vm_compute. reflexivity.
  - apply surjective_pairing.
Defined.

(** ** The orchestrator: outcomes *)

Lemma _premerge_status (H : host) (fcd fco fca : filectx) (toolconf : toolconf_t)
    (back : option filectx) (labels : option (list string)) (w w' : world) (r : pyval) :
  _premerge H fcd fco fca toolconf back labels w = (w', inr r) → r = PyInt 0 ∨ r = PyInt 1.
Proof.
  unfold _premerge. destruct (_ || _); [intros [= _ <-]; auto|].
  intros [(w1 & p & _ & Hk)|(e & _ & ?)]%bind_inv; [|done].
  destruct (truthy p); [|injection Hk as _ <-; auto].
  apply bind_inv in Hk as [(w2 & r1 & _ & Hk)|(e & _ & ?)]; [|done].
  destruct (negb (truthy r1)).
  - apply bind_inv in Hk as [(w3 & [] & _ & [= _ <-])|(e & _ & ?)]; auto. done.
  - apply bind_inv in Hk as [(w3 & [] & _ & [= _ <-])|(e & _ & ?)]; auto. done.
Qed.

(** In the premerge of a [fullmerge] tool the run is the premerge driver
    and nothing else: the tool's function, its failure message and the
    kind of working context play no part; and an outcome that is returned
    is [(not r, r, False)] with a status [r] of 0 or 1, so that the merge
    is complete exactly when the premerge was clean. *)
Theorem premerge_phase_outcome (H : host) (wctx wctx' : changectx) (mynode mynode' : string)
    (fcd fco fca : filectx) (func func' : funcobj) (onfail onfail' : option string)
    (toolconf : toolconf_t) (back : option filectx) (labels : option (list string))
    (relfd relfd' : string) (w : world) :
  _filemerge_tryfinally H true wctx mynode fcd fco fca func fullmerge onfail toolconf back
                        labels relfd w
    = _filemerge_tryfinally H true wctx' mynode' fcd fco fca func' fullmerge onfail' toolconf
                            back labels relfd' w ∧
  ∀ w' v, _filemerge_tryfinally H true wctx mynode fcd fco fca func fullmerge onfail toolconf
                                back labels relfd w = (w', inr v) →
          ∃ r, (r = PyInt 0 ∨ r = PyInt 1) ∧
               v = PyTuple [PyBool (negb (truthy r)); r; PyBool false].
Proof.
  split; [reflexivity|]. intros w' v.
  unfold _filemerge_tryfinally, with_r, try_finally.
  destruct (_filemerge_try _ _ _ _ _ _ _ _ _ _ _ _ _ _ _) as [[w1 r1] res1] eqn:Etry.
  intros Hfin.
  assert (res1 = inr v) as ->.
  { revert Hfin. destruct (_filemerge_finally H back (w1, r1)) as [s2 [e|[]]]; by intros [= _ <-]. }
  clear Hfin. revert Etry. unfold _filemerge_try.
  intros [(s1 & lbls & [-> _]%liftE_inv & Hk)|(e & _ & ?)]%bind_inv; [|done].
  rewrite bool_decide_eq_true_2 in Hk by done. cbn [andb] in Hk.
  apply bind_inv in Hk as [(s2 & r & [Hpre _]%lift_inv & Hk)|(e & _ & ?)]; [|done].
  apply bind_inv in Hk as [(s3 & [] & _ & Hret)|(e & _ & ?)]; [|done].
  unfold ret in Hret. injection Hret as _ <-.
  exists r. split; [|done]. by apply _premerge_status in Hpre.
Qed.

Lemma premerge_phase_outcome_witness :
  let run := _filemerge_tryfinally Scenario.plainhost true workingctx "node" Scenario.fcd_disk
               Scenario.fco Scenario.fca (internalfunc f_imerge) fullmerge
               (Some conflictswarning) Scenario.toolconf_merge (Some Scenario.back_disk) None
               "a.txt" (Scenario.backedup "L" "B" "O") in
  ∃ r, (r = PyInt 0 ∨ r = PyInt 1) ∧
       PyTuple [PyBool true; PyInt 0; PyBool false]
         = PyTuple [PyBool (negb (truthy r)); r; PyBool false].
Proof.
  intros run.
  apply (proj2 (premerge_phase_outcome Scenario.plainhost workingctx workingctx "node" "node"
                  Scenario.fcd_disk Scenario.fco Scenario.fca (internalfunc f_imerge)
                  (internalfunc f_imerge) (Some conflictswarning) (Some conflictswarning)
                  Scenario.toolconf_merge (Some Scenario.back_disk) None "a.txt" "a.txt"
                  (Scenario.backedup "L" "B" "O")) run.1).
  vm_compute. reflexivity.
Defined.

Lemma report_onfailure_inmemory (wctx : changectx) (fcd : filectx) (onfail : option string)
    (relfd : string) (w w' : world) (res : exn + unit) :
  isinmemory wctx = true → str_truthy onfail = true →
  report_onfailure wctx fcd onfail relfd w = (w', res) →
  res = inl (inmemoryconflict "in-memory merge does not support merge conflicts" fcd).
Proof.
  intros Hmem Hon. unfold report_onfailure. destruct onfail as [msg|]; [|done].
  rewrite Hon, Hmem. by intros [= _ <-].
Qed.

(** Outside the premerge of a [fullmerge] tool, a merge in memory with a
    tool that has a failure message never returns a status that is not
    clean: conflicts end the run with an error. *)
Theorem inmemory_never_returns_conflicts (H : host) (premerge : bool) (wctx : changectx)
    (mynode : string) (fcd fco fca : filectx) (func : funcobj) (mtype : mergetype_t)
    (onfail : option string) (toolconf : toolconf_t) (back : option filectx)
    (labels : option (list string)) (relfd : string) (w w' : world) (c r d : pyval) :
  isinmemory wctx = true →
  str_truthy onfail = true →
  premerge && bool_decide (mtype = fullmerge) = false →
  _filemerge_tryfinally H premerge wctx mynode fcd fco fca func mtype onfail toolconf back
                        labels relfd w = (w', inr (PyTuple [c; r; d])) →
  truthy r = false.
Proof.
  intros Hmem Hon Hphase.
  unfold _filemerge_tryfinally, with_r, try_finally.
  destruct (_filemerge_try _ _ _ _ _ _ _ _ _ _ _ _ _ _ _) as [[w1 r1] res1] eqn:Etry.
  intros Hfin.
  assert (res1 = inr (PyTuple [c; r; d])) as ->.
  { revert Hfin. destruct (_filemerge_finally H back (w1, r1)) as [s2 [e|[]]]; by intros [= _ <-]. }
  clear Hfin. revert Etry. unfold _filemerge_try.
  intros [(s1 & lbls & [-> _]%liftE_inv & Hk)|(e & _ & ?)]%bind_inv; [|done].
  rewrite Hphase in Hk.
  apply bind_inv in Hk as [(s2 & res & _ & Hk)|(e & _ & ?)]; [|done].
  apply bind_inv in Hk as [(s3 & [[needcheck r2] deleted] & _ & Hk)|(e & _ & ?)]; [|done].
  apply bind_inv in Hk as [(s4 & [] & _ & Hk)|(e & _ & ?)]; [|done].
  apply bind_inv in Hk as [(s5 & [] & _ & Hk)|(e & _ & ?)]; [|done].
  apply bind_inv in Hk as [(s6 & r3 & Hget & Hk)|(e & _ & ?)]; [|done].
  apply bind_inv in Hk as [(s7 & [] & Hfail & Hret)|(e & _ & ?)]; [|done].
  unfold ret in Hret. injection Hret as _ _ <- _.
  destruct (truthy r3) eqn:Hr3; [|done].
  apply bind_inv in Hfail as [(s8 & [] & [Hrep _]%lift_inv & _)|(e & _ & ?)]; [|done].
  by apply (report_onfailure_inmemory _ _ _ _ _ _ _ Hmem Hon) in Hrep.
Qed.

Lemma inmemory_never_returns_conflicts_witness :
  truthy (PyInt 0) = false.
Proof.
  apply (inmemory_never_returns_conflicts Scenario.plainhost false overlayworkingctx "node"
           Scenario.fcd_mem Scenario.fco Scenario.fca (internalfunc f_imerge) fullmerge
           (Some conflictswarning) Scenario.toolconf_merge None None "a.txt"
           (Scenario.inmemory "L" "B" "O")
           (_filemerge_tryfinally Scenario.plainhost false overlayworkingctx "node"
              Scenario.fcd_mem Scenario.fco Scenario.fca (internalfunc f_imerge) fullmerge
              (Some conflictswarning) Scenario.toolconf_merge None None "a.txt"
              (Scenario.inmemory "L" "B" "O")).1
           (PyBool true) (PyInt 0) (PyBool false)).
  - reflexivity.
  - reflexivity.
  - reflexivity.
  - vm_compute. reflexivity.
Defined.

(** ** The failure policy *)

(** [merge.on-failure]: [halt] stops the merge without asking; [prompt]
    asks, and stops on the second choice only; every other value, set or
    not, lets the merge go on and does nothing. *)
Theorem onfilemergefailure_policy (H : host) (w : world) :
  let action := ui_config H "merge" "on-failure" None in
  let halted := InterventionRequired "merge halted after failed merge (see hg resolve)" in
  let question := "continue merge operation (yn)?$$ &Yes $$ &No" in
  (action = Some "halt" → _onfilemergefailure H w = (w, inl halted)) ∧
  (action = Some "prompt" →
   ∀ w1 i, promptchoice question 0 w = (w1, inr i) →
           _onfilemergefailure H w = (w1, if i =? 1 then inl halted else inr tt)) ∧
  (action ≠ Some "halt" → action ≠ Some "prompt" → _onfilemergefailure H w = (w, inr tt)).
Proof.
  intros action halted question. unfold _onfilemergefailure. fold action.
  split; [|split].
  - by intros ->.
  - intros -> w1 i Hask. rewrite bool_decide_eq_true_2 by done.
    assert (Hinner : (let* answer := promptchoice question 0 in
                      if answer =? 1 then _haltmerge else ret ()) w
                     = (w1, if i =? 1 then inl halted else inr tt)).
    { rewrite (bind_ok _ _ _ _ _ Hask). by destruct (i =? 1). }
    destruct (i =? 1).
    + by rewrite (bind_err _ _ _ _ _ Hinner).
    + by rewrite (bind_ok _ _ _ _ _ Hinner).
  - intros Hh Hp. by rewrite !bool_decide_eq_false_2.
Qed.

Lemma onfilemergefailure_policy_witness :
  let w := Scenario.ondisk "L" "B" "O" in
  _onfilemergefailure (Cases.onfailurehost "halt") w
    = (w, inl (InterventionRequired "merge halted after failed merge (see hg resolve)")) ∧
  _onfilemergefailure (Cases.onfailurehost "whatever") w = (w, inr tt) ∧
  _onfilemergefailure (Cases.onfailurehost "prompt") (Scenario.answering_no w)
    = ((promptchoice "continue merge operation (yn)?$$ &Yes $$ &No" 0
          (Scenario.answering_no w)).1,
       inl (InterventionRequired "merge halted after failed merge (see hg resolve)")).
Proof.
  intros w. split; [|split].
  - apply (proj1 (onfilemergefailure_policy (Cases.onfailurehost "halt") w)). reflexivity.
  - apply (proj2 (proj2 (onfilemergefailure_policy (Cases.onfailurehost "whatever") w)));
      discriminate.
  - apply (proj1 (proj2 (onfilemergefailure_policy (Cases.onfailurehost "prompt")
                           (Scenario.answering_no w))) eq_refl _ 1).
    reflexivity.
Defined.

(** ** Conflict labels *)

Lemma pyindex_nat {A} (l : list A) (i : nat) :
  pyindex l (Z.of_nat i) = match l !! i with Some x => inr x | None => inl IndexError end.
Proof.
  unfold pyindex. destruct (Z.ltb_spec (Z.of_nat i) 0) as [?|_]; [lia|].
  rewrite Nat2Z.id. destruct (Z.leb_spec 0 (Z.of_nat i)) as [_|?]; [|lia]. cbn [andb].
  destruct (Z.ltb_spec (Z.of_nat i) (Z.of_nat (length l))) as [?|?]; [done|].
  rewrite lookup_ge_None_2; [done|lia].
Qed.

(** [_formatlabels] wants two labels at least, and formats the first
    three: it gives as many labels as it was given, up to three. *)
Theorem formatlabels_count (H : host) (fcd fco fca : filectx) (labels : list string) :
  (∀ l, _formatlabels H fcd fco fca labels = inr l →
        (2 ≤ length labels)%nat ∧ length l = Nat.min 3 (length labels)) ∧
  ((length labels < 2)%nat → ∃ e, _formatlabels H fcd fco fca labels = inl e).
Proof.
  unfold _formatlabels.
  change (pyindex labels 0) with (pyindex labels (Z.of_nat 0)).
  change (pyindex labels 1) with (pyindex labels (Z.of_nat 1)).
  change (pyindex labels 2) with (pyindex labels (Z.of_nat 2)).
  rewrite !pyindex_nat.
  destruct labels as [|l0 [|l1 [|l2 rest]]].
  - split; [done|]. eauto.
  - split; [done|]. intros _. eexists. reflexivity.
  - split; [|cbn; lia]. intros l [= <-]. cbn. lia.
  - split; [|cbn; lia]. intros l [= <-]. cbn. lia.
Qed.

Lemma formatlabels_count_witness :
  ∃ l, _formatlabels Scenario.plainhost Scenario.fcd_disk Scenario.fco Scenario.fca
         ["local"; "other"] = inr l ∧
       (2 ≤ length ["local"; "other"])%nat ∧ length l = Nat.min 3 2.
Proof.
  eexists. split; [vm_compute; reflexivity|].
  apply (proj1 (formatlabels_count Scenario.plainhost Scenario.fcd_disk Scenario.fco
                  Scenario.fca ["local"; "other"])).
  vm_compute. reflexivity.
Defined.

(** ** The dump tools *)

(** [:dump] of a file of the working directory against two revisions
    leaves three files beside it and always reports the merge as
    unresolved: the local text at [<file>.local], the other and the base
    version at [<file>.other] and [<file>.base], written in this order.  No
    other file changes, in particular not the destination unless one of
    the three names is its own, and nothing in memory. *)
Theorem idump_writes_side_files (H : host) (p no po na pa : string) (w : world)
    (dl do_ da : filedata) :
  let fcd := fctx workingctx p in
  let fco := fctx (changectx_rev no) po in
  let fca := fctx (changectx_rev na) pa in
  let local := repo_wjoin H p +:+ ".local" in
  let other := repo_wjoin H (p +:+ ".other") in
  let base := repo_wjoin H (p +:+ ".base") in
  stored H fcd w = Some dl → stored H fco w = Some do_ → stored H fca w = Some da →
  ∃ w', _idump H fcd fco fca w = (w', inr (PyTuple [PyBool false; PyInt 1; PyBool false])) ∧
        log w' = log w ++ [ev_write (arbitraryfilectx local);
                           ev_write (fctx workingctx (p +:+ ".other"));
                           ev_write (fctx workingctx (p +:+ ".base"))] ∧
        disk w' !! base
          = Some {| fdata := repo_wwritedata H (p +:+ ".base") (fdata da);
                    fflags := fflags da |} ∧
        (∀ q, q ≠ local → q ≠ other → q ≠ base → disk w' !! q = disk w !! q) ∧
        mem w' = mem w ∧ revs w' = revs w.
Proof.
  intros fcd fco fca local other base Hl Ho Ha.
  unfold _idump. subst fcd. cbv beta iota zeta. cbn [path].
  rewrite (bind_ok _ _ _ _ _ (data_present H _ w dl Hl)).
  unfold util_writefile at 1. cbn [needstr]. rewrite bind_ret_l.
  unfold bind at 1, modify at 1. fold local.
  set (w1 := add_log _ _).
  assert (Ho1 : stored H fco w1 = Some do_) by exact Ho.
  assert (Ha1 : stored H fca w1 = Some da) by exact Ha.
  rewrite (bind_ok _ _ _ _ _ (data_present H fco w1 do_ Ho1)).
  rewrite (bind_ok _ _ _ _ _ (flags_present H fco w1 do_ Ho1)).
  unfold repo_wwrite at 1. cbn [needstr]. rewrite bind_ret_l. cbn [write].
  unfold bind at 1, modify at 1.
  set (w2 := add_log _ (set_disk _ w1)).
  assert (Ha2 : stored H fca w2 = Some da) by exact Ha.
  rewrite (bind_ok _ _ _ _ _ (data_present H fca w2 da Ha2)).
  rewrite (bind_ok _ _ _ _ _ (flags_present H fca w2 da Ha2)).
  unfold repo_wwrite. cbn [needstr]. rewrite bind_ret_l. cbn [write].
  unfold bind, modify, ret.
  eexists. split; [reflexivity|]. subst w2 w1.
  cbn [log disk mem revs add_log set_disk]. fold local other base.
  split; [by rewrite <- !app_assoc|].
  split; [apply lookup_insert_eq|].
  split; [|done].
  intros q Hql Hqo Hqb. by rewrite !lookup_insert_ne.
Qed.

Lemma idump_writes_side_files_witness :
  let w := Scenario.ondisk "L" "B" "O" in
  ∃ w', _idump Scenario.plainhost Scenario.fcd_disk Scenario.fco Scenario.fca w
          = (w', inr (PyTuple [PyBool false; PyInt 1; PyBool false])) ∧
        disk w' !! "/repo/a.txt.base" = Some (Scenario.file "B" "") ∧
        disk w' !! "/repo/a.txt" = disk w !! "/repo/a.txt".
Proof.
  intros w.
  destruct (idump_writes_side_files Scenario.plainhost "a.txt" "other" "a.txt" "base" "a.txt"
              w (Scenario.file "L" "") (Scenario.file "O" "") (Scenario.file "B" ""))
    as (w' & Hrun & _ & Hbase & Hframe & _).
  - vm_compute. reflexivity.
  - vm_compute. reflexivity.
  - vm_compute. reflexivity.
  - exists w'. split; [exact Hrun|]. split; [exact Hbase|].
    apply Hframe; discriminate.
Defined.
